(** * EasyRPG Player: the audio decoder base class and the decoder factory

    A shallow embedding of [src/audio_decoder.cpp] (with the declarations of
    [src/decoder_wav.h]) and the properties of its playback engine
    ([Decode], [DecodeAll], the fade envelope), of the sample-size lookup
    and of the format classifier [Create].

    Conventions of the embedding:
    - a C++ [int] is a [Z]; where the source computes on [int]s the
      two's-complement wrap-around is written out with [int_wrap];
    - a [double] is an IEEE 754 binary64 number, [spec_float] with
      precision 53 and exponent bound 1024, and the arithmetic is the one
      of [SpecFloat];
    - raw memory is a finite map from addresses to bytes; an address that is
      not in the map holds an indeterminate (never written) value;
    - [assert] is compiled in: a failing assertion ends the run
      ([AssertFailed]);
    - virtual member functions are the fields of the class [Backend]. *)

From Stdlib Require Import ZArith Lia Bool List String Ascii.
From Stdlib Require Import Strings.Byte.
From Stdlib Require Import SpecFloat.
From stdpp Require Import base option list gmap strings.

Open Scope Z_scope.

(** ** Machine integers *)

Definition INT_MIN : Z := - 2 ^ 31.
Definition INT_MAX : Z := 2 ^ 31 - 1.

(** The value an [int] computation yields on the two's-complement targets
    of the player. *)
Definition int_wrap (z : Z) : Z := (z + 2 ^ 31) mod 2 ^ 32 - 2 ^ 31.

Definition in_int (z : Z) : Prop := INT_MIN <= z <= INT_MAX.

(** [size_t] arithmetic of the 64-bit targets. *)
Definition size_wrap (z : Z) : Z := z mod 2 ^ 64.

(** ** Outcomes of a call *)

Inductive outcome (A : Type) : Type :=
  | Done (a : A)                 (* the call returns *)
  | AssertFailed (msg : string)  (* [assert(false && msg)] *)
  | Thrown (what : string)       (* a C++ exception leaves the call *)
  | Fault                        (* a write the address space cannot hold *)
  | OutOfFuel.                   (* the bound of the model was too small *)

Arguments Done {A} a.
Arguments AssertFailed {A} msg.
Arguments Thrown {A} what.
Arguments Fault {A}.
Arguments OutOfFuel {A}.

#[global] Instance outcome_ret : MRet outcome := fun A a => Done a.

#[global] Instance outcome_bind : MBind outcome := fun A C k o =>
  match o with
  | Done a => k a
  | AssertFailed msg => AssertFailed msg
  | Thrown what => Thrown what
  | Fault => Fault
  | OutOfFuel => OutOfFuel
  end.

(** ** Raw memory *)

Abbreviation mem := (gmap Z byte).

(** [n] consecutive bytes [c] from address [p] on. *)
Fixpoint memset_bytes (m : mem) (p : Z) (c : byte) (n : nat) : mem :=
  match n with
  | O => m
  | S k => <[p := c]> (memset_bytes m (p + 1) c k)
  end.

(** [memset(p, c, n)] with [n] an [int]: the count is converted to
    [size_t], so a negative [n] asks for more bytes than there are. *)
Definition memset (m : mem) (p : Z) (c : byte) (n : Z) : outcome mem :=
  if n <? 0 then Fault else Done (memset_bytes m p c (Z.to_nat n)).

(** The bytes [p .. p + n - 1] have all been written. *)
Definition region_defined (m : mem) (p n : Z) : Prop :=
  forall i, 0 <= i < n -> is_Some (m !! (p + i)).

Definition region_zero (m : mem) (p n : Z) : Prop :=
  forall i, 0 <= i < n -> m !! (p + i) = Some x00.

(** A [std::vector<uint8_t>] laid out from address [p] on, and read back. *)
Fixpoint store_bytes (m : mem) (p : Z) (l : list byte) : mem :=
  match l with
  | [] => m
  | b :: l' => <[p := b]> (store_bytes m (p + 1) l')
  end.

Fixpoint load_bytes (m : mem) (p : Z) (n : nat) : list byte :=
  match n with
  | O => []
  | S k => default x00 (m !! p) :: load_bytes m (p + 1) k
  end.

(** ** Doubles *)

Definition double : Type := spec_float.

Definition dadd : double -> double -> double := SFadd 53 1024.
Definition dsub : double -> double -> double := SFsub 53 1024.
Definition dmul : double -> double -> double := SFmul 53 1024.
Definition ddiv : double -> double -> double := SFdiv 53 1024.
Definition dle : double -> double -> bool := SFleb.
Definition dlt : double -> double -> bool := SFltb.
Definition dgt (x y : double) : bool := SFltb y x.

(** [(double)n]; exact for every [int]. *)
Definition of_int (n : Z) : double := binary_normalize 53 1024 n 0 false.

Definition d0 : double := S754_zero false.
Definition d100 : double := Eval vm_compute in of_int 100.

(** [(int)x]: the fraction is dropped; a value no [int] can hold has no
    defined conversion. *)
Definition to_int (x : double) : option Z :=
  match x with
  | S754_zero _ => Some 0
  | S754_finite s m e =>
      let z := Z.shiftl (Zpos m) e in
      let v := if s then - z else z in
      if (INT_MIN <=? v) && (v <=? INT_MAX) then Some v else None
  | S754_infinity _ | S754_nan => None
  end.

Definition is_nan (x : double) : bool :=
  match x with S754_nan => true | _ => false end.

(** Neither a NaN nor an infinity. *)
Definition is_finite (x : double) : bool :=
  match x with S754_zero _ | S754_finite _ _ _ => true | _ => false end.

(** ** The decoder object *)

(** The data members of the base class [AudioDecoder]. *)
Record AudioDecoder : Type := mkAudioDecoder {
  error_message : string;
  music_type : string;
  paused : bool;
  volume : double;
  fade_end : double;
  fade_time : double;
  delta_step : double;
  looping : bool;
  loop_count : Z
}.

Definition set_paused (v : bool) (a : AudioDecoder) : AudioDecoder :=
  mkAudioDecoder (error_message a) (music_type a) v (volume a) (fade_end a)
    (fade_time a) (delta_step a) (looping a) (loop_count a).

Definition set_volume (v : double) (a : AudioDecoder) : AudioDecoder :=
  mkAudioDecoder (error_message a) (music_type a) (paused a) v (fade_end a)
    (fade_time a) (delta_step a) (looping a) (loop_count a).

Definition set_fade_end (v : double) (a : AudioDecoder) : AudioDecoder :=
  mkAudioDecoder (error_message a) (music_type a) (paused a) (volume a) v
    (fade_time a) (delta_step a) (looping a) (loop_count a).

Definition set_fade_time (v : double) (a : AudioDecoder) : AudioDecoder :=
  mkAudioDecoder (error_message a) (music_type a) (paused a) (volume a)
    (fade_end a) v (delta_step a) (looping a) (loop_count a).

Definition set_delta_step (v : double) (a : AudioDecoder) : AudioDecoder :=
  mkAudioDecoder (error_message a) (music_type a) (paused a) (volume a)
    (fade_end a) (fade_time a) v (looping a) (loop_count a).

Definition set_looping (v : bool) (a : AudioDecoder) : AudioDecoder :=
  mkAudioDecoder (error_message a) (music_type a) (paused a) (volume a)
    (fade_end a) (fade_time a) (delta_step a) v (loop_count a).

Definition set_loop_count (v : Z) (a : AudioDecoder) : AudioDecoder :=
  mkAudioDecoder (error_message a) (music_type a) (paused a) (volume a)
    (fade_end a) (fade_time a) (delta_step a) (looping a) v.

Definition set_error_message (v : string) (a : AudioDecoder) : AudioDecoder :=
  mkAudioDecoder v (music_type a) (paused a) (volume a) (fade_end a)
    (fade_time a) (delta_step a) (looping a) (loop_count a).

(** [std::ios_base::seekdir]. *)
Inductive seekdir : Type := seek_beg | seek_cur | seek_end.

(** The pure virtual members a concrete decoder implements, over the
    state [B] of that decoder. [FillBuffer b m buffer length] may write to
    memory and returns the [int] the C++ function returns. A concrete
    decoder is taken not to change [paused], [looping], [loop_count] and
    the members of the fade from within these calls, so the calls act on
    [B] alone. *)
Class Backend (B : Type) : Type := {
  FillBuffer : B -> mem -> Z -> Z -> B * mem * Z;
  IsFinished : B -> bool;
  Seek : B -> Z -> seekdir -> B * bool
}.

(** What leaves the base class during a call: the calls of the virtual
    members and the lines of [Output::Debug]. *)
Inductive event : Type :=
  | FillBufferCall (buffer length res : Z)
  | SeekCall (offset : Z) (origin : seekdir) (ok : bool)
  | DebugLine (msg : string).

(** A decoder object: the base-class members, the state of the concrete
    decoder and the calls observed so far (newest first). *)
Record Decoder (B : Type) : Type := mkDecoder {
  base : AudioDecoder;
  impl : B;
  calls : list event
}.

Arguments mkDecoder {B} base impl calls.
Arguments base {B} d.
Arguments impl {B} d.
Arguments calls {B} d.

Definition with_base {B : Type} (f : AudioDecoder -> AudioDecoder) (d : Decoder B) : Decoder B :=
  mkDecoder (f (base d)) (impl d) (calls d).

Definition observe {B : Type} (e : event) (d : Decoder B) : Decoder B :=
  mkDecoder (base d) (impl d) (e :: calls d).

Definition is_seek (e : event) : bool :=
  match e with SeekCall _ _ _ => true | _ => false end.

Definition is_fill (e : event) : bool :=
  match e with FillBufferCall _ _ _ => true | _ => false end.

Definition is_debug (e : event) : bool :=
  match e with DebugLine _ => true | _ => false end.

Definition recursion_message : string :=
  "Audio Decoder: Recursion depth exceeded. Probably stream error.".

Definition buffer_size : Z := 8192.

(** The largest size [std::vector<uint8_t>::resize] accepts. *)
Definition vector_max_size : Z := 2 ^ 63 - 1.

Section PlaybackEngine.
Context {B : Type} `{Backend B}.

Definition Pause (d : Decoder B) : Decoder B := with_base (set_paused true) d.

Definition Resume (d : Decoder B) : Decoder B := with_base (set_paused false) d.

(** [Rewind]: [Seek(0, beg)], whose failure trips the assertion. *)
Definition Rewind (d : Decoder B) : outcome (Decoder B) :=
  let '(b, ok) := Seek (impl d) 0 seek_beg in
  let d' := observe (SeekCall 0 seek_beg ok) (mkDecoder (base d) b (calls d)) in
  if ok then Done d' else AssertFailed "Rewind".

(** The end of [Decode]: the diagnostic at the cap, and [return res]. *)
Definition Decode_return (d : Decoder B) (m : mem) (res recursion_depth : Z)
  : outcome (Decoder B * mem * Z) :=
  let d' :=
    if (recursion_depth =? 10) && (loop_count (base d) <? 50)
    then observe (DebugLine recursion_message) d
    else d in
  Done (d', m, res).

(** [Decode(buffer, length, recursion_depth)]. The recursion is on the
    depth, which a recursive call raises by one and which stops it at 10;
    [fuel] bounds the number of nested calls. *)
Fixpoint Decode_fuel (fuel : nat) (d : Decoder B) (m : mem)
    (buffer length recursion_depth : Z) : outcome (Decoder B * mem * Z) :=
  match fuel with
  | O => OutOfFuel
  | S fuel' =>
      if paused (base d) then
        m' ← memset m buffer x00 length;
        Done (d, m', length)
      else
        let '(b, m1, res) := FillBuffer (impl d) m buffer length in
        let d1 := observe (FillBufferCall buffer length res)
                    (mkDecoder (base d) b (calls d)) in
        m2 ← (if res <? 0 then memset m1 buffer x00 length
              else if res <? length
                   then memset m1 (buffer + res) x00 (int_wrap (length - res))
                   else Done m1);
        if IsFinished (impl d1) && looping (base d1) && (recursion_depth <? 10) then
          let d2 := with_base (set_loop_count (int_wrap (loop_count (base d1) + 1))) d1 in
          d3 ← Rewind d2;
          if int_wrap (length - res) >? 0 then
            '(d4, m4, res2) ← Decode_fuel fuel' d3 m2 (buffer + res)
                                 (int_wrap (length - res)) (recursion_depth + 1);
            if res2 <=? 0 then Done (d4, m4, res)
            else Done (d4, m4, int_wrap (res + res2))
          else Decode_return d3 m2 res recursion_depth
        else Decode_return d1 m2 res recursion_depth
  end.

(** Enough nested calls for any depth: the calls at depths
    [recursion_depth .. 10]. *)
Definition Decode3 (d : Decoder B) (m : mem) (buffer length recursion_depth : Z)
  : outcome (Decoder B * mem * Z) :=
  Decode_fuel (S (Z.to_nat (10 - recursion_depth))) d m buffer length recursion_depth.

(** [Decode(buffer, length)]. *)
Definition Decode (d : Decoder B) (m : mem) (buffer length : Z)
  : outcome (Decoder B * mem * Z) :=
  Decode3 d m buffer length 0.

(** [Decode] on the last [buffer_size] bytes of a vector. *)
Definition Decode_chunk (d : Decoder B) (buffer : list byte)
  : outcome (Decoder B * list byte * Z) :=
  let size := Z.of_nat (List.length buffer) in
  let m := store_bytes ∅ 0 buffer in
  '(d', m', read) ← Decode d m (0 + size - buffer_size) buffer_size;
  Done (d', load_bytes m' 0 (List.length buffer), read).

(** [buffer.resize(n)] with [n] computed in [size_t]. *)
Definition vector_resize (n : Z) (buffer : list byte) : outcome (list byte) :=
  let n' := size_wrap n in
  if n' >? vector_max_size then Thrown "length_error"
  else Done (resize (Z.to_nat n') x00 buffer).

(** The [while] loop of [DecodeAll]; it need not end, [fuel] bounds the
    number of tests of its condition. *)
Fixpoint DecodeAll_loop (fuel : nat) (d : Decoder B) (buffer : list byte)
  : outcome (Decoder B * list byte) :=
  match fuel with
  | O => OutOfFuel
  | S fuel' =>
      if negb (IsFinished (impl d)) then
        '(d', buffer', read) ← Decode_chunk d buffer;
        let size := Z.of_nat (List.length buffer') in
        if read <? buffer_size then
          buffer'' ← vector_resize (size - int_wrap (buffer_size - read)) buffer';
          Done (d', buffer'')
        else
          buffer'' ← vector_resize (size + buffer_size) buffer';
          DecodeAll_loop fuel' d' buffer''
      else Done (d, buffer)
  end.

Definition DecodeAll (fuel : nat) (d : Decoder B) : outcome (Decoder B * list byte) :=
  buffer ← vector_resize buffer_size [];
  DecodeAll_loop fuel d buffer.

End PlaybackEngine.

(** ** The fade envelope and the accessors of the base class *)

Definition SetFade (begin end_ duration : Z) (a : AudioDecoder) : AudioDecoder :=
  let a := set_fade_time d0 a in
  if dle (of_int duration) d0 then set_volume (of_int end_) a
  else if begin =? end_ then set_volume (of_int end_) a
  else
    let a := set_volume (of_int begin) a in
    let a := set_fade_end (of_int end_) a in
    let a := set_fade_time (of_int duration) a in
    set_delta_step (ddiv (dsub (fade_end a) (volume a)) (fade_time a)) a.

(** The clamp at the end of [Update]. *)
Definition clamp_volume (v : double) : double :=
  if dgt v d100 then d100
  else if dlt v d0 then d0
  else v.

Definition Update (delta : Z) (a : AudioDecoder) : AudioDecoder :=
  if dle (fade_time a) d0 then a
  else
    let a := set_fade_time (dsub (fade_time a) (of_int delta)) a in
    let a := set_volume (dadd (volume a) (dmul (of_int delta) (delta_step a))) a in
    set_volume (clamp_volume (volume a)) a.

Definition SetVolume (volume : Z) (a : AudioDecoder) : AudioDecoder :=
  set_volume (of_int volume) a.

Definition GetVolume (a : AudioDecoder) : option Z := to_int (volume a).

Definition GetLooping (a : AudioDecoder) : bool := looping a.

Definition SetLooping (enable : bool) (a : AudioDecoder) : AudioDecoder :=
  set_looping enable a.

Definition GetLoopCount (a : AudioDecoder) : Z := loop_count a.

Definition WasInited (a : AudioDecoder) : bool := true.

Definition GetError (a : AudioDecoder) : string := error_message a.

Definition GetType (a : AudioDecoder) : string := music_type a.

Definition GetPitch (a : AudioDecoder) : Z := 0.

Definition SetPitch (pitch : Z) (a : AudioDecoder) : bool := false.

Definition Tell (a : AudioDecoder) : Z := -1.

Definition GetTicks (a : AudioDecoder) : Z := 0.

(** The operations on the volume a caller can issue. *)
Inductive volume_op : Type :=
  | OpSetVolume (volume : Z)
  | OpSetFade (begin end_ duration : Z)
  | OpUpdate (delta : Z).

Definition run_op (o : volume_op) (a : AudioDecoder) : AudioDecoder :=
  match o with
  | OpSetVolume v => SetVolume v a
  | OpSetFade b e t => SetFade b e t a
  | OpUpdate t => Update t a
  end.

(** The states after each operation of a sequence, in order. *)
Fixpoint run_ops (os : list volume_op) (a : AudioDecoder) : list AudioDecoder :=
  match os with
  | [] => []
  | o :: os' => run_op o a :: run_ops os' (run_op o a)
  end.

(** [0 <= volume <= 100] as the comparisons of [double] decide it. *)
Definition volume_in_range (a : AudioDecoder) : bool :=
  dle d0 (volume a) && dle (volume a) d100.

(** The arguments a caller means as percentages: the volume of
    [SetVolume], [begin] and [end] of [SetFade]; the others are [int]s. *)
Definition op_in_range (o : volume_op) : Prop :=
  match o with
  | OpSetVolume v => 0 <= v <= 100
  | OpSetFade b e t => 0 <= b <= 100 /\ 0 <= e <= 100 /\ in_int t
  | OpUpdate t => in_int t
  end.

(** A number whose mantissa fits the 53 bits of a double and whose
    exponent is not positive. *)
Definition moderate (x : double) : bool :=
  match x with
  | S754_zero _ => true
  | S754_finite _ m e => (Zpos m <? 2 ^ 53) && (e <=? 0)
  | _ => false
  end.

(** The volume is in range and the step is a number. *)
Definition fade_ready (a : AudioDecoder) : Prop :=
  volume_in_range a = true /\ is_finite (delta_step a) = true.

(** ** Sample formats *)

(** Modelled from the spec: the declaration of [AudioDecoder::Format] is
    in [audio_decoder.h], which is not among the sources. Section 3 gives
    its members as the signed and unsigned integers of 8, 16 and 32 bits
    and the 32-bit float; these are the seven enumerators that the
    [switch] of [GetSamplesizeForFormat] names. *)
Inductive Format : Type := S8 | U8 | S16 | U16 | S32 | U32 | F32.

(** The value of an object of the enumeration type: one of the
    enumerators or, after a cast, a number that is none of them. *)
Inductive FormatValue : Type :=
  | Enumerator (f : Format)
  | NotEnumerator (raw : Z).

Definition GetSamplesizeForFormat (format : FormatValue) : outcome Z :=
  match format with
  | Enumerator S8 | Enumerator U8 => Done 1
  | Enumerator S16 | Enumerator U16 => Done 2
  | Enumerator S32 | Enumerator U32 | Enumerator F32 => Done 4
  | NotEnumerator _ => AssertFailed "Bad format"
  end.

Definition has_width (format : FormatValue) : Prop :=
  exists w, GetSamplesizeForFormat format = Done w.

(** The enumerators, in the order of the [switch]. *)
Definition all_formats : list Format := [S8; U8; S16; U16; S32; U32; F32].

(** ** The sentinel decoder for WMA files *)

Definition newline : string := String (ascii_of_nat 10) EmptyString.

Definition wma_error_message : string :=
  String.append
    (String.append "WMA audio files are not supported. Reinstall the" newline)
    (String.append "game and don't convert them when asked by Windows!" newline).

(** [WMAUnsupportedFormatDecoder] has no data members of its own; its
    members ignore their arguments. *)
#[global] Instance WMAUnsupportedFormatDecoder_backend : Backend unit := {|
  FillBuffer := fun b m _ _ => (b, m, -1);
  IsFinished := fun _ => true;
  Seek := fun b _ _ => (b, false)
|}.

(** The constructor, applied to the base-class members as their
    declaration initialises them. *)
Definition WMAUnsupportedFormatDecoder (fresh : AudioDecoder) : Decoder unit :=
  mkDecoder (set_error_message wma_error_message fresh) tt [].

Definition wma_magic : list byte := [x30; x26; xb2; x75].

(** ** Streams *)

(** Modelled from the spec: [Filesystem_Stream::InputStream], the seekable
    byte source of section 3 ("absolute-offset seek,
    read-into-fixed-size-buffer, end/error-clear"), is not among the
    sources. It is a [std::istream]; the members used by [Create] follow
    the rules of the C++ library for unformatted input: a read on a stream
    that is not good only sets [failbit]; a short read sets [eofbit] and
    [failbit]; [seekg] clears [eofbit] and does nothing on a failed stream.
    [seek_past_end] tells whether the underlying buffer accepts a position
    behind the last byte (a file does, a memory buffer need not). *)
Record InputStream : Type := mkInputStream {
  contents : list byte;
  position : Z;
  eofbit : bool;
  failbit : bool;
  badbit : bool;
  stream_name : string;
  seek_past_end : bool
}.

Definition stream_good (s : InputStream) : bool :=
  negb (eofbit s || failbit s || badbit s).

Definition stream_fail (s : InputStream) : bool := failbit s || badbit s.

(** [stream.read(buf, n)]: the stream afterwards and the bytes extracted
    ([gcount()] is their number). *)
Definition stream_read (s : InputStream) (n : nat) : InputStream * list byte :=
  if stream_good s then
    let got := take n (drop (Z.to_nat (position s)) (contents s)) in
    let pos' := position s + Z.of_nat (List.length got) in
    if (List.length got <? n)%nat
    then (mkInputStream (contents s) pos' true true (badbit s)
            (stream_name s) (seek_past_end s), got)
    else (mkInputStream (contents s) pos' (eofbit s) (failbit s) (badbit s)
            (stream_name s) (seek_past_end s), got)
  else (mkInputStream (contents s) (position s) (eofbit s) true (badbit s)
          (stream_name s) (seek_past_end s), []).

(** [stream.seekg(off, std::ios::beg)]. *)
Definition seekg (off : Z) (s : InputStream) : InputStream :=
  if stream_fail s
  then mkInputStream (contents s) (position s) false (failbit s) (badbit s)
         (stream_name s) (seek_past_end s)
  else if (0 <=? off) &&
          ((off <=? Z.of_nat (List.length (contents s))) || seek_past_end s)
  then mkInputStream (contents s) off false (failbit s) (badbit s)
         (stream_name s) (seek_past_end s)
  else mkInputStream (contents s) (position s) false true (badbit s)
         (stream_name s) (seek_past_end s).

(** [stream.clear()]. *)
Definition stream_clear (s : InputStream) : InputStream :=
  mkInputStream (contents s) (position s) false false false
    (stream_name s) (seek_past_end s).

(** [stream.tellg()]. *)
Definition tellg (s : InputStream) : Z :=
  if stream_fail s then -1 else position s.

(** The bytes of a buffer after [got] was read into its front. *)
Definition read_into (buf got : list byte) : list byte :=
  got ++ drop (List.length got) buf.

(** [stream.ReadIntoObj(magic)]: read [sizeof(magic)] bytes into the
    object and tell whether the stream is still usable. *)
Definition ReadIntoObj (s : InputStream) (obj : list byte)
  : InputStream * list byte * bool :=
  let '(s', got) := stream_read s (List.length obj) in
  (s', read_into obj got, negb (stream_fail s')).

(** The stream condition a caller can retry on: at offset 0, no error
    flag set. *)
Definition stream_rewound (s : InputStream) : Prop :=
  position s = 0 /\ eofbit s = false /\ failbit s = false /\ badbit s = false.

(** ** Comparing byte buffers *)

Definition byte_val (c : byte) : Z := Z.of_N (Byte.to_N c).

(** [strncmp(s1, s2, n)]; the end of a list is the terminating NUL of a
    string literal. *)
Fixpoint strncmp (s1 s2 : list byte) (n : nat) : Z :=
  match n with
  | O => 0
  | S n' =>
      let c1 := hd x00 s1 in
      let c2 := hd x00 s2 in
      if negb (Byte.eqb c1 c2) then byte_val c1 - byte_val c2
      else if Byte.eqb c1 x00 then 0
      else strncmp (tl s1) (tl s2) n'
  end.

Fixpoint memcmp (s1 s2 : list byte) (n : nat) : Z :=
  match n with
  | O => 0
  | S n' =>
      let c1 := hd x00 s1 in
      let c2 := hd x00 s2 in
      if negb (Byte.eqb c1 c2) then byte_val c1 - byte_val c2
      else memcmp (tl s1) (tl s2) n'
  end.

Definition lit (s : string) : list byte := list_byte_of_string s.

(** ** The decoder factory *)

(** The preprocessor symbols [Create] is compiled under. *)
Record BuildConfig : Type := mkBuildConfig {
  USE_AUDIO_RESAMPLER : bool;
  HAVE_OPUS : bool;
  HAVE_TREMOR : bool;
  HAVE_OGGVORBIS : bool;
  WANT_FASTWAV : bool;
  HAVE_LIBSNDFILE : bool;
  HAVE_XMP : bool;
  HAVE_MPG123 : bool
}.

(** What [Create] calls outside this file: the MIDI sub-classifier (does it
    hand back a decoder, and the stream after it), the tracker-module test
    on the file name, the mpg123 decoder (did its constructor initialise
    the library, does the stream parse as MP3, and the stream after the
    scan). [raw_enc_stack] is what the two bytes of the local [raw_enc]
    hold before the read; [AudioDecoder_fresh] are the base-class members
    as [audio_decoder.h] initialises them. *)
Record Collaborators : Type := mkCollaborators {
  MidiDecoder_Create : InputStream -> bool -> InputStream * bool;
  XMPDecoder_IsModule : string -> bool;
  Mpg123Decoder_WasInited : bool;
  Mpg123Decoder_IsMp3 : InputStream -> InputStream * bool;
  raw_enc_stack : list byte;
  AudioDecoder_fresh : AudioDecoder
}.

(** The decoder classes of the other translation units. *)
Inductive DecoderClass : Type :=
  | MidiDecoder | OpusDecoder | OggVorbisDecoder | WavDecoder
  | LibsndfileDecoder | XMPDecoder | Mpg123Decoder.

(** What the [unique_ptr] that [Create] returns owns. *)
Inductive CreatedDecoder : Type :=
  | Constructed (c : DecoderClass)
  | AudioResampler (wrapped : CreatedDecoder)
  | Sentinel (d : Decoder unit).

(** [Utils::SwapByteOrder] leaves the little-endian field of the file in
    host order. *)
Definition le16 (bytes : list byte) : Z :=
  byte_val (hd x00 bytes) + 256 * byte_val (hd x00 (tl bytes)).

Section Factory.
Variable cfg : BuildConfig.
Variable env : Collaborators.

(** The stream, the static [mpg123_works] and the returned pointer
    ([None] is [nullptr]). *)
Definition created : Type := InputStream * bool * option CreatedDecoder.

Definition add_resampler (resample : bool) (dec : CreatedDecoder) : CreatedDecoder :=
  if USE_AUDIO_RESAMPLER cfg && resample then AudioResampler dec else dec.

(** The last lines: [stream.clear(); stream.seekg(0); return nullptr]. *)
Definition Create_nothing (mpg123_works : bool) (stream : InputStream) : created :=
  (seekg 0 (stream_clear stream), mpg123_works, None).

(** [#ifdef HAVE_MPG123] and the end of the function. *)
Definition Create_mpg123 (mpg123_works : bool) (stream : InputStream)
    (resample : bool) (magic : list byte) : created :=
  if HAVE_MPG123 cfg then
    if mpg123_works then
      let mp3dec := add_resampler resample (Constructed Mpg123Decoder) in
      if Mpg123Decoder_WasInited env then
        if strncmp magic (lit "ID3") 3 =? 0 then (stream, mpg123_works, Some mp3dec)
        else
          let '(stream, is_mp3) := Mpg123Decoder_IsMp3 env stream in
          if is_mp3
          then (seekg 0 (stream_clear stream), mpg123_works, Some mp3dec)
          else Create_nothing mpg123_works stream
      else Create_nothing false stream
    else Create_nothing mpg123_works stream
  else Create_nothing mpg123_works stream.

(** libsndfile, the WMA notice and the tracker modules. *)
Definition Create_common (mpg123_works : bool) (stream : InputStream)
    (resample : bool) (magic : list byte) : created :=
  if (strncmp magic (lit "RIFF") 4 =? 0) ||
     (strncmp magic (lit "FORM") 4 =? 0) ||
     (strncmp magic (lit "OggS") 4 =? 0) ||
     (strncmp magic (lit "fLaC") 4 =? 0)
  then
    if HAVE_LIBSNDFILE cfg
    then (stream, mpg123_works, Some (add_resampler resample (Constructed LibsndfileDecoder)))
    else (stream, mpg123_works, None)
  else if memcmp magic wma_magic 4 =? 0
  then (stream, mpg123_works,
        Some (Sentinel (WMAUnsupportedFormatDecoder (AudioDecoder_fresh env))))
  else if HAVE_XMP cfg && XMPDecoder_IsModule env (stream_name stream)
  then (stream, mpg123_works, Some (add_resampler resample (Constructed XMPDecoder)))
  else Create_mpg123 mpg123_works stream resample magic.

(** [#ifdef WANT_FASTWAV]. *)
Definition Create_fastwav (mpg123_works : bool) (stream : InputStream)
    (resample : bool) (magic : list byte) : created :=
  if WANT_FASTWAV cfg && (strncmp magic (lit "RIFF") 4 =? 0) then
    let stream := seekg 20 stream in
    let '(stream, got) := stream_read stream 2 in
    let raw_enc := le16 (read_into (raw_enc_stack env) got) in
    let stream := seekg 0 stream in
    if raw_enc =? 1
    then (stream, mpg123_works, Some (add_resampler resample (Constructed WavDecoder)))
    else Create_common mpg123_works stream resample magic
  else Create_common mpg123_works stream resample magic.

(** The Vorbis probe of the Ogg branch. *)
Definition Create_vorbis (mpg123_works : bool) (stream : InputStream)
    (resample : bool) (magic : list byte) : created :=
  if HAVE_TREMOR cfg || HAVE_OGGVORBIS cfg then
    let stream := seekg 29 stream in
    let '(stream, got) := stream_read stream 4 in
    let magic := read_into magic got in
    if (List.length got =? 0)%nat then (stream, mpg123_works, None)
    else
      let stream := seekg 0 stream in
      if strncmp magic (lit "vorb") 4 =? 0
      then (stream, mpg123_works, Some (add_resampler resample (Constructed OggVorbisDecoder)))
      else Create_fastwav mpg123_works stream resample magic
  else Create_fastwav mpg123_works stream resample magic.

(** The Ogg branch; both probes read into [magic]. *)
Definition Create_ogg (mpg123_works : bool) (stream : InputStream)
    (resample : bool) (magic : list byte) : created :=
  if strncmp magic (lit "OggS") 4 =? 0 then
    if HAVE_OPUS cfg then
      let stream := seekg 28 stream in
      let '(stream, got) := stream_read stream 4 in
      let magic := read_into magic got in
      if (List.length got =? 0)%nat then (stream, mpg123_works, None)
      else
        let stream := seekg 0 stream in
        if strncmp magic (lit "Opus") 4 =? 0
        then (stream, mpg123_works, Some (add_resampler resample (Constructed OpusDecoder)))
        else Create_vorbis mpg123_works stream resample magic
    else Create_vorbis mpg123_works stream resample magic
  else Create_fastwav mpg123_works stream resample magic.

(** [AudioDecoder::Create(stream, resample)], with the static
    [mpg123_works] passed in and handed back. *)
Definition Create (mpg123_works : bool) (stream : InputStream) (resample : bool)
  : created :=
  let magic := [x00; x00; x00; x00] in
  let '(stream, magic, ok) := ReadIntoObj stream magic in
  if negb ok then (stream, mpg123_works, None)
  else
    let stream := seekg 0 stream in
    if strncmp magic (lit "MThd") 4 =? 0 then
      let '(stream, midi) := MidiDecoder_Create env stream resample in
      if midi then (stream, mpg123_works, Some (Constructed MidiDecoder))
      else Create_ogg mpg123_works stream resample magic
    else Create_ogg mpg123_works stream resample magic.

End Factory.

(** The members of a created decoder that the file itself defines. *)
Definition created_IsFinished (c : CreatedDecoder) : option bool :=
  match c with
  | Sentinel d => Some (IsFinished (impl d))
  | _ => None
  end.

Definition created_GetError (c : CreatedDecoder) : option string :=
  match c with
  | Sentinel d => Some (GetError (base d))
  | _ => None
  end.

(** ** What the base class expects of a concrete decoder *)

(** Everything written in [m] is still written in [m']. *)
Definition mem_extends (m m' : mem) : Prop :=
  forall a, is_Some (m !! a) -> is_Some (m' !! a).

Section BackendContract.
Context (B : Type) `{Backend B}.

(** [FillBuffer] has written the bytes it reports as produced, and
    leaves no byte indeterminate that was not so before. *)
Definition fills_reported : Prop :=
  forall b m buffer length b' m' res,
    FillBuffer b m buffer length = (b', m', res) ->
    mem_extends m m' /\ region_defined m' buffer (Z.min res length).

(** "The libs guarantee that Rewind works". *)
Definition rewind_works : Prop :=
  forall b, snd (Seek b 0 seek_beg) = true.

(** End of stream is reported after every call. *)
Definition always_finished : Prop :=
  forall b, IsFinished b = true.
End BackendContract.

Definition seek_count (l : list event) : Z := Z.of_nat (List.length (filter (fun e => is_seek e = true) l)).

Definition fill_count (l : list event) : Z := Z.of_nat (List.length (filter (fun e => is_fill e = true) l)).

Definition returned {A : Type} (o : outcome (A * mem * Z)) : option Z :=
  match o with
  | Done (_, _, r) => Some r
  | _ => None
  end.

(** ** Objects for the examples *)

(** A decoder that is not paused, not looping and has no fade running. *)
Definition idle_decoder : AudioDecoder :=
  mkAudioDecoder "" "" false d0 d0 d0 d0 false 0.

(** A stream that is at its end after [produces] bytes, every time it is
    played: [FillBuffer] writes that many bytes [1] (as far as the request
    goes) and the stream counts as finished; seeking always works. *)
Record ShortStream : Type := mkShortStream { produces : Z }.

#[global] Instance ShortStream_backend : Backend ShortStream := {|
  FillBuffer := fun b m buffer length =>
    let k := Z.max 0 (Z.min (produces b) length) in
    (b, memset_bytes m buffer x01 (Z.to_nat k), k);
  IsFinished := fun _ => true;
  Seek := fun b _ _ => (b, true)
|}.

Definition short_looping (k : Z) : Decoder ShortStream :=
  mkDecoder (set_looping true idle_decoder) (mkShortStream k) [].

(** A stream whose every read fails: [FillBuffer] writes nothing and
    returns -1, the stream counts as finished, seeking works. *)
Inductive BrokenStream : Type := broken_stream.

#[global] Instance BrokenStream_backend : Backend BrokenStream := {|
  FillBuffer := fun b m _ _ => (b, m, -1);
  IsFinished := fun _ => true;
  Seek := fun b _ _ => (b, true)
|}.

Definition broken_looping : Decoder BrokenStream :=
  mkDecoder (set_looping true idle_decoder) broken_stream [].

(** An input stream at its start. *)
Definition stream_of (bytes : list byte) : InputStream :=
  mkInputStream bytes 0 false false false "music" true.

(** A build with every backend and a run where no collaborator claims
    the stream. *)
Definition full_build : BuildConfig :=
  mkBuildConfig true true true true true true true true.

Definition no_claims : Collaborators :=
  mkCollaborators (fun s _ => (s, false)) (fun _ => false) true
    (fun s => (s, false)) [x00; x00] idle_decoder.

(** ** Reading the answer of the factory *)

(** The class of the decoder at the bottom of the wrappers; the sentinel
    is of none of the classes. *)
Fixpoint created_class (c : CreatedDecoder) : option DecoderClass :=
  match c with
  | Constructed k => Some k
  | AudioResampler wrapped => created_class wrapped
  | Sentinel _ => None
  end.

Definition returned_decoder (r : created) : option CreatedDecoder := snd r.

Definition returned_flag (r : created) : bool := snd (fst r).

Definition returned_stream (r : created) : InputStream := fst (fst r).

(** The stream at offset 0 with no flag set. *)
Definition at_start (s : InputStream) : InputStream :=
  mkInputStream (contents s) 0 false false false (stream_name s) (seek_past_end s).

(** The bytes a read at the current position has before it. *)
Definition ahead (s : InputStream) : list byte :=
  drop (Z.to_nat (position s)) (contents s).

(** The four bytes [k .. k + 3] of a stream. *)
Definition bytes_at (k : nat) (s : InputStream) : list byte :=
  take 4 (drop k (contents s)).

(** ** Further contracts and objects for the examples *)

Definition debug_count (l : list event) : Z :=
  Z.of_nat (List.length (filter (fun e => is_debug e = true) l)).

Section StreamContract.
Context (B : Type) `{Backend B}.

(** [FillBuffer] returns an [int] that is not above the request. *)
Definition counts_within : Prop :=
  forall b m buffer length,
    0 <= length -> INT_MIN <= snd (FillBuffer b m buffer length) <= length.

(** A stream with [remaining b] bytes still to play: [FillBuffer] hands
    out as many of them as are asked for, and the stream is finished when
    none is left. *)
Definition plays_out (remaining : B -> Z) : Prop :=
  (forall b, 0 <= remaining b) /\
  (forall b, IsFinished b = (remaining b =? 0)) /\
  (forall b m buffer length,
      0 < length ->
      snd (FillBuffer b m buffer length) = Z.min (remaining b) length /\
      remaining (fst (fst (FillBuffer b m buffer length)))
        = remaining b - Z.min (remaining b) length).
End StreamContract.

Section DestinationContract.
Context (B : Type) `{Backend B}.

(** [FillBuffer] writes nowhere but in the buffer it is given. *)
Definition writes_within : Prop :=
  forall b m buffer length b' m' res,
    FillBuffer b m buffer length = (b', m', res) ->
    forall a, a < buffer \/ buffer + length <= a -> m' !! a = m !! a.

(** A [FillBuffer] that failed has not brought the stream to its end. *)
Definition failure_not_finished : Prop :=
  forall b m buffer length b' m' res,
    FillBuffer b m buffer length = (b', m', res) ->
    res < 0 -> IsFinished b' = false.
End DestinationContract.

(** A stream of [total] bytes of which [left] are still to play. *)
Record FiniteStream : Type := mkFiniteStream { total : Z; left : Z }.

#[global] Instance FiniteStream_backend : Backend FiniteStream := {|
  FillBuffer := fun b m buffer length =>
    let k := Z.max 0 (Z.min (left b) length) in
    (mkFiniteStream (total b) (left b - k),
     memset_bytes m buffer x01 (Z.to_nat k), k);
  IsFinished := fun b => left b <=? 0;
  Seek := fun b _ _ => (mkFiniteStream (total b) (total b), true)
|}.

Definition finite_decoder (n : Z) : Decoder FiniteStream :=
  mkDecoder idle_decoder (mkFiniteStream n n) [].

(** A stream that is not at its end and whose every read fails. *)
Inductive StalledStream : Type := stalled_stream.

#[global] Instance StalledStream_backend : Backend StalledStream := {|
  FillBuffer := fun b m _ _ => (b, m, -1);
  IsFinished := fun _ => false;
  Seek := fun b _ _ => (b, true)
|}.

Definition stalled_decoder : Decoder StalledStream :=
  mkDecoder idle_decoder stalled_stream [].

(** A run in which the constructor of the mpg123 decoder could not
    initialise the library. *)
Definition mpg123_broken : Collaborators :=
  mkCollaborators (fun s _ => (s, false)) (fun _ => false) false
    (fun s => (s, false)) [x00; x00] idle_decoder.

(** A run in which the two bytes of the stack that [raw_enc] occupies
    happen to hold the code of PCM. *)
Definition wav_on_stack : Collaborators :=
  mkCollaborators (fun s _ => (s, false)) (fun _ => false) true
    (fun s => (s, false)) [x01; x00] idle_decoder.

(** Ogg pages of 40 bytes: one whose codec header names Vorbis, one that
    names Speex. *)
Definition ogg_vorbis_page : list byte :=
  lit "OggS" ++ replicate 24 x00 ++ [x01] ++ lit "vorbis" ++ replicate 5 x00.

Definition ogg_speex_page : list byte :=
  lit "OggS" ++ replicate 24 x00 ++ lit "Speex   " ++ replicate 4 x00.

(** A run in which the MIDI sub-classifier and the tracker test claim
    what they are shown. *)
Definition all_claims : Collaborators :=
  mkCollaborators (fun s _ => (s, true)) (fun _ => true) true
    (fun s => (s, true)) [x00; x00] idle_decoder.

(** * Properties *)

(** ** Machine integers *)

Lemma int_wrap_id z : in_int z -> int_wrap z = z.
Proof.
  unfold in_int, INT_MIN, INT_MAX, int_wrap. intros Hz.
  rewrite Z.mod_small; lia.
Qed.

Lemma int_wrap_range z : in_int (int_wrap z).
Proof.
  unfold in_int, INT_MIN, INT_MAX, int_wrap.
  pose proof (Z.mod_pos_bound (z + 2 ^ 31) (2 ^ 32)). lia.
Qed.

Lemma int_wrap_add_l a b : int_wrap (int_wrap a + b) = int_wrap (a + b).
Proof.
  unfold int_wrap. f_equal.
  replace ((a + 2 ^ 31) mod 2 ^ 32 - 2 ^ 31 + b + 2 ^ 31)
    with ((a + 2 ^ 31) mod 2 ^ 32 + b) by lia.
  rewrite Zplus_mod_idemp_l. f_equal. lia.
Qed.

(** ** Raw memory *)

Lemma mem_extends_refl m : mem_extends m m.
Proof. intros a Ha. exact Ha. Qed.

Lemma mem_extends_trans m1 m2 m3 :
  mem_extends m1 m2 -> mem_extends m2 m3 -> mem_extends m1 m3.
Proof. intros H12 H23 a Ha. apply H23, H12, Ha. Qed.

Lemma memset_bytes_inside n : forall m p c i,
  0 <= i < Z.of_nat n -> memset_bytes m p c n !! (p + i) = Some c.
Proof.
  induction n as [|n IH]; intros m p c i Hi; [lia|].
  cbn [memset_bytes].
  destruct (decide (i = 0)) as [->|Hne].
  - rewrite Z.add_0_r. apply lookup_insert_eq.
  - rewrite lookup_insert_ne by lia.
    replace (p + i) with ((p + 1) + (i - 1)) by lia.
    apply IH. lia.
Qed.

Lemma memset_bytes_outside n : forall m p c a,
  a < p \/ p + Z.of_nat n <= a -> memset_bytes m p c n !! a = m !! a.
Proof.
  induction n as [|n IH]; intros m p c a Ha; [reflexivity|].
  cbn [memset_bytes].
  rewrite lookup_insert_ne by lia.
  apply IH. lia.
Qed.

Lemma memset_bytes_extends n m p c : mem_extends m (memset_bytes m p c n).
Proof.
  intros a Ha.
  destruct (decide (p <= a < p + Z.of_nat n)) as [Hin|Hout].
  - replace a with (p + (a - p)) by lia.
    rewrite memset_bytes_inside by lia. eauto.
  - rewrite memset_bytes_outside by lia. exact Ha.
Qed.

Lemma memset_done m p c n :
  0 <= n -> memset m p c n = Done (memset_bytes m p c (Z.to_nat n)).
Proof.
  intros Hn. unfold memset.
  destruct (n <? 0) eqn:E; [apply Z.ltb_lt in E; lia | reflexivity].
Qed.

Lemma memset_bytes_zero m p n :
  0 <= n -> region_zero (memset_bytes m p x00 (Z.to_nat n)) p n.
Proof. intros Hn i Hi. apply memset_bytes_inside. lia. Qed.

Lemma region_zero_defined m p n : region_zero m p n -> region_defined m p n.
Proof. intros Hz i Hi. rewrite (Hz i Hi). eauto. Qed.

Lemma region_defined_extends m m' p n :
  mem_extends m m' -> region_defined m p n -> region_defined m' p n.
Proof. intros He Hd i Hi. apply He, Hd, Hi. Qed.

(** ** Decode while paused *)

(** C4. While paused, [Decode(buf, N)] with [N >= 0] returns [N], leaves
    every byte of [buf] zero and touches nothing else: the decoder object
    is the one before the call (the state of the backend and the list of
    calls made to it included, so no [FillBuffer], no [Seek] and no
    recursive call took place, and the loop count is the same), memory
    outside [buf] is unchanged, and [Resume] gives back the decoder that
    was paused, so a later [Decode] is the call it would have been
    without the pause. *)
Theorem Decode_paused_silence {B : Type} `{Backend B}
    (d : Decoder B) (m : mem) (buf N : Z) :
  paused (base d) = true ->
  0 <= N ->
  exists m',
    Decode d m buf N = Done (d, m', N) /\
    region_zero m' buf N /\
    (forall a, a < buf \/ buf + N <= a -> m' !! a = m !! a) /\
    (forall d0, paused (base d0) = false -> d = Pause d0 -> Resume d = d0).
Proof.
  intros Hp HN.
  exists (memset_bytes m buf x00 (Z.to_nat N)).
  split; [|split; [|split]].
  - unfold Decode, Decode3. cbn [Decode_fuel]. rewrite Hp.
    rewrite memset_done by exact HN. reflexivity.
  - apply memset_bytes_zero, HN.
  - intros a Ha. apply memset_bytes_outside. lia.
  - intros [[] b0 c0] Hd0 ->. cbn in Hd0. subst. reflexivity.
Qed.

Lemma Decode_paused_silence_witness :
  exists m',
    Decode (Pause (short_looping 3)) ∅ 100 8 = Done (Pause (short_looping 3), m', 8) /\
    region_zero m' 100 8.
Proof.
  destruct (Decode_paused_silence (Pause (short_looping 3)) ∅ 100 8)
    as (m' & Hrun & Hzero & _); [reflexivity | lia |].
  exists m'. split; assumption.
Defined.

(** ** The calls a Decode makes *)

Lemma seek_count_app l1 l2 : seek_count (l1 ++ l2) = seek_count l1 + seek_count l2.
Proof. unfold seek_count. rewrite filter_app, length_app. lia. Qed.

Lemma fill_count_app l1 l2 : fill_count (l1 ++ l2) = fill_count l1 + fill_count l2.
Proof. unfold fill_count. rewrite filter_app, length_app. lia. Qed.

Lemma seek_count_nonneg l : 0 <= seek_count l.
Proof. unfold seek_count. lia. Qed.

Lemma Decode_return_done {B : Type} (d : Decoder B) m res depth :
  exists dbg,
    Decode_return d m res depth =
      Done (mkDecoder (base d) (impl d) (dbg ++ calls d), m, res) /\
    seek_count dbg = 0 /\ fill_count dbg = 0.
Proof.
  unfold Decode_return.
  destruct ((depth =? 10) && (loop_count (base d) <? 50)).
  - exists [DebugLine recursion_message]. repeat split.
  - exists []. destruct d. repeat split.
Qed.

Section DecodeCalls.
Context {B : Type} `{Backend B}.
Hypothesis Hrewind : rewind_works B.

Lemma Rewind_done (d : Decoder B) :
  exists b2,
    Seek (impl d) 0 seek_beg = (b2, true) /\
    Rewind d = Done (mkDecoder (base d) b2 (SeekCall 0 seek_beg true :: calls d)).
Proof.
  unfold Rewind. pose proof (Hrewind (impl d)) as Hok.
  destruct (Seek (impl d) 0 seek_beg) as [b2 ok]. cbn in Hok. subst ok.
  exists b2. split; reflexivity.
Qed.

(** Given enough nested calls for the depth, [Decode] returns; it has
    rewound once for every increment of the loop count, and the numbers
    of rewinds and of [FillBuffer] calls are bounded by what is left
    of the ten levels. *)
Lemma Decode_fuel_returns (fuel : nat) :
  forall (d : Decoder B) m buffer length depth,
    (1 <= fuel)%nat ->
    10 - depth < Z.of_nat fuel ->
    0 <= length <= INT_MAX ->
    exists d' m' ret new,
      Decode_fuel fuel d m buffer length depth = Done (d', m', ret) /\
      calls d' = new ++ calls d /\
      (in_int (loop_count (base d)) ->
       loop_count (base d') = int_wrap (loop_count (base d) + seek_count new)) /\
      seek_count new <= Z.max 0 (10 - depth) /\
      fill_count new <= Z.max 1 (11 - depth) /\
      (always_finished B -> paused (base d) = false -> looping (base d) = true ->
       depth < 10 -> 1 <= seek_count new).
Proof.
  induction fuel as [|fuel IH]; intros d m buffer length depth Hf1 Hf Hlen; [lia|].
  cbn [Decode_fuel].
  destruct (paused (base d)) eqn:Hp.
  { rewrite memset_done by lia. cbn.
    exists d, (memset_bytes m buffer x00 (Z.to_nat length)), length, [].
    change (seek_count []) with 0. change (fill_count []) with 0.
    rewrite Z.add_0_r.
    split; [reflexivity|]. split; [reflexivity|].
    split; [intros Hlc; symmetry; apply int_wrap_id, Hlc|].
    repeat split; try lia; intros; discriminate. }
  destruct (FillBuffer (impl d) m buffer length) as [[b m1] res] eqn:Hfill.
  assert (Hm2 : exists m2,
    (if res <? 0 then memset m1 buffer x00 length
     else if res <? length
          then memset m1 (buffer + res) x00 (int_wrap (length - res))
          else Done m1) = Done m2).
  { destruct (res <? 0) eqn:E1; [rewrite memset_done by lia; eauto|].
    destruct (res <? length) eqn:E2; [|eauto].
    apply Z.ltb_ge in E1. apply Z.ltb_lt in E2.
    rewrite int_wrap_id by (unfold in_int, INT_MIN, INT_MAX in *; lia).
    rewrite memset_done by lia. eauto. }
  destruct Hm2 as [m2 ->]. cbn [mbind outcome_bind].
  unfold observe, with_base. cbn [base impl calls].
  set (call := FillBufferCall buffer length res).
  destruct (IsFinished b && looping (base d) && (depth <? 10)) eqn:Hc.
  - apply andb_prop in Hc as [_ Hd]. apply Z.ltb_lt in Hd.
    set (lc1 := int_wrap (loop_count (base d) + 1)).
    destruct (Rewind_done (mkDecoder (set_loop_count lc1 (base d)) b (call :: calls d)))
      as (b2 & _ & ->).
    cbn [mbind outcome_bind base impl calls].
    set (seek := SeekCall 0 seek_beg true).
    destruct (int_wrap (length - res) >? 0) eqn:Hrem.
    + apply Z.gtb_lt in Hrem.
      pose proof (int_wrap_range (length - res)) as Hr.
      destruct (IH (mkDecoder (set_loop_count lc1 (base d)) b2 (seek :: call :: calls d))
                  m2 (buffer + res) (int_wrap (length - res)) (depth + 1))
        as (d4 & m4 & res2 & new & Hrun & Hcalls & Hcount & Hseek & Hfills & _).
      { lia. } { lia. } { unfold in_int in Hr. lia. }
      rewrite Hrun. cbn [mbind outcome_bind].
      cbn [base calls set_loop_count loop_count] in Hcalls, Hcount.
      specialize (Hcount (int_wrap_range _)).
      pose proof (seek_count_nonneg new) as Hnn.
      exists d4, m4, (if res2 <=? 0 then res else int_wrap (res + res2)),
        (new ++ [seek; call]).
      split; [destruct (res2 <=? 0); reflexivity|].
      split; [rewrite Hcalls, <- app_assoc; reflexivity|].
      rewrite seek_count_app, fill_count_app.
      change (seek_count [seek; call]) with 1.
      change (fill_count [seek; call]) with 1.
      split; [|repeat split; lia].
      intros _. rewrite Hcount. unfold lc1. rewrite int_wrap_add_l. f_equal. lia.
    + destruct (Decode_return_done
                  (mkDecoder (set_loop_count lc1 (base d)) b2 (seek :: call :: calls d))
                  m2 res depth) as (dbg & -> & Hs & Hf0).
      cbn [base impl calls].
      eexists _, m2, res, (dbg ++ [seek; call]).
      split; [reflexivity|].
      cbn [base calls set_loop_count loop_count].
      split; [rewrite <- app_assoc; reflexivity|].
      rewrite seek_count_app, fill_count_app, Hs, Hf0.
      change (seek_count [seek; call]) with 1.
      change (fill_count [seek; call]) with 1.
      cbn [Z.add]. split; [reflexivity | repeat split; lia].
  - destruct (Decode_return_done (mkDecoder (base d) b (call :: calls d)) m2 res depth)
      as (dbg & -> & Hs & Hf0).
    cbn [base impl calls].
    eexists _, m2, res, (dbg ++ [call]).
    split; [reflexivity|].
    cbn [base calls].
    split; [rewrite <- app_assoc; reflexivity|].
    rewrite seek_count_app, fill_count_app, Hs, Hf0.
    change (seek_count [call]) with 0.
    change (fill_count [call]) with 1.
    cbn [Z.add]. rewrite Z.add_0_r.
    split; [intros Hlc; symmetry; apply int_wrap_id, Hlc|].
    repeat split; try lia.
    intros Hfin _ Hloop Hd. exfalso.
    rewrite (Hfin b), Hloop in Hc. cbn in Hc.
    apply Z.ltb_ge in Hc. lia.
Qed.

End DecodeCalls.

(** The bound on the nested calls is never what ends a [Decode]. *)
Lemma Decode_fuel_enough {B : Type} `{Backend B} (fuel : nat) :
  forall (d : Decoder B) m buffer length depth,
    (1 <= fuel)%nat ->
    10 - depth < Z.of_nat fuel ->
    Decode_fuel fuel d m buffer length depth <> OutOfFuel.
Proof.
  induction fuel as [|fuel IH]; intros d m buffer length depth Hf1 Hf; [lia|].
  cbn [Decode_fuel].
  assert (Hmemset : forall m0 p n, memset m0 p x00 n <> OutOfFuel).
  { intros m0 p n. unfold memset. destruct (n <? 0); discriminate. }
  destruct (paused (base d)).
  { specialize (Hmemset m buffer length).
    destruct (memset m buffer x00 length); cbn; congruence. }
  destruct (FillBuffer (impl d) m buffer length) as [[b m1] res].
  match goal with
  | |- mbind _ ?pad <> _ =>
      assert (Hpad : pad <> OutOfFuel)
        by (destruct (res <? 0); [apply Hmemset|];
            destruct (res <? length); [apply Hmemset | discriminate]);
      destruct pad as [m2| | | |]; cbn [mbind outcome_bind]; try congruence
  end.
  assert (Hret : forall (d1 : Decoder B), Decode_return d1 m2 res depth <> OutOfFuel)
    by (intros d1; unfold Decode_return; discriminate).
  destruct (IsFinished _ && looping _ && (depth <? 10)) eqn:Hc; [|apply Hret].
  apply andb_prop in Hc as [_ Hd]. apply Z.ltb_lt in Hd.
  unfold Rewind. destruct (Seek _ 0 seek_beg) as [b2 [|]];
    cbn [mbind outcome_bind]; [|discriminate].
  destruct (int_wrap (length - res) >? 0); [|apply Hret].
  match goal with
  | |- mbind _ ?rec <> _ =>
      assert (Hrec : rec <> OutOfFuel) by (apply IH; lia);
      destruct rec as [[[d4 m4] res2]| | | |]; cbn [mbind outcome_bind]; try congruence
  end.
  destruct (res2 <=? 0); discriminate.
Qed.

Lemma Decode_never_out_of_fuel {B : Type} `{Backend B} (d : Decoder B) m buffer length depth :
  Decode3 d m buffer length depth <> OutOfFuel.
Proof. unfold Decode3. apply Decode_fuel_enough; lia. Qed.

(** ** Loop re-entry *)



(** A stream of no content at all is rewound the full ten times, and the
    diagnostic is written once. *)
Example Decode_empty_loop :
  exists d' m',
    Decode (short_looping 0) ∅ 100 8 = Done (d', m', 0) /\
    loop_count (base d') = 10 /\
    seek_count (calls d') = 10 /\
    fill_count (calls d') = 11 /\
    filter (fun e => is_debug e = true) (calls d') = [DebugLine recursion_message].
Proof. eexists _, _. vm_compute. repeat split. Qed.

(** Three bytes at a time fill a buffer of eight in three rounds. *)
Example Decode_short_loop :
  exists d' m',
    Decode (short_looping 3) ∅ 100 8 = Done (d', m', 8) /\
    loop_count (base d') = 3 /\
    load_bytes m' 100 8 = [x01; x01; x01; x01; x01; x01; x01; x01].
Proof. eexists _, _. vm_compute. repeat split. Qed.

(** ** What Decode leaves in the destination *)

Section DecodeMemory.
Context {B : Type} `{Backend B}.
Hypothesis Hfills : fills_reported B.

(** After the fill and the padding that follows it, the destination is
    written from end to end. *)
Lemma padded_defined (b b' : B) m m1 m2 buffer length res :
  0 <= length <= INT_MAX ->
  FillBuffer b m buffer length = (b', m1, res) ->
  (if res <? 0 then memset m1 buffer x00 length
   else if res <? length
        then memset m1 (buffer + res) x00 (int_wrap (length - res))
        else Done m1) = Done m2 ->
  mem_extends m m2 /\ region_defined m2 buffer length.
Proof.
  intros Hlen Hfill Hpad.
  destruct (Hfills _ _ _ _ _ _ _ Hfill) as [Hext Hdef].
  destruct (res <? 0) eqn:E1.
  { rewrite memset_done in Hpad by lia. injection Hpad as <-. split.
    - eapply mem_extends_trans; [exact Hext | apply memset_bytes_extends].
    - apply region_zero_defined, memset_bytes_zero. lia. }
  apply Z.ltb_ge in E1.
  destruct (res <? length) eqn:E2.
  - apply Z.ltb_lt in E2.
    rewrite int_wrap_id in Hpad by (unfold in_int, INT_MIN, INT_MAX in *; lia).
    rewrite memset_done in Hpad by lia. injection Hpad as <-. split.
    + eapply mem_extends_trans; [exact Hext | apply memset_bytes_extends].
    + intros i Hi. destruct (decide (i < res)) as [Hlo|Hhi].
      * apply memset_bytes_extends, Hdef. lia.
      * replace (buffer + i) with ((buffer + res) + (i - res)) by lia.
        rewrite memset_bytes_inside by lia. eauto.
  - apply Z.ltb_ge in E2. injection Hpad as <-. split; [exact Hext|].
    intros i Hi. apply Hdef. lia.
Qed.

Lemma Decode_fuel_memory (fuel : nat) :
  forall (d d' : Decoder B) m m' buffer length depth ret,
    0 <= length <= INT_MAX ->
    Decode_fuel fuel d m buffer length depth = Done (d', m', ret) ->
    mem_extends m m' /\ region_defined m' buffer length.
Proof.
  induction fuel as [|fuel IH]; intros d d' m m' buffer length depth ret Hlen Hrun;
    [discriminate|].
  cbn [Decode_fuel] in Hrun.
  destruct (paused (base d)) eqn:Hp.
  { rewrite memset_done in Hrun by lia. cbn in Hrun. injection Hrun as <- <- <-.
    split; [apply memset_bytes_extends|].
    apply region_zero_defined, memset_bytes_zero. lia. }
  destruct (FillBuffer (impl d) m buffer length) as [[b m1] res] eqn:Hfill.
  match type of Hrun with
  | mbind _ ?pad = _ => destruct pad as [m2| | | |] eqn:Hpad; try discriminate
  end.
  destruct (padded_defined _ _ _ _ _ _ _ _ Hlen Hfill Hpad) as [Hext Hdef].
  cbn [mbind outcome_bind] in Hrun.
  assert (Hret : forall (d1 : Decoder B),
             Decode_return d1 m2 res depth = Done (d', m', ret) -> m' = m2).
  { intros d1 Hr. destruct (Decode_return_done d1 m2 res depth) as (dbg & E & _).
    rewrite E in Hr. injection Hr as _ <- _. reflexivity. }
  destruct (IsFinished _ && looping _ && (depth <? 10)).
  - destruct (Rewind _) as [d3| | | |]; try discriminate.
    cbn [mbind outcome_bind] in Hrun.
    destruct (int_wrap (length - res) >? 0) eqn:Hrem.
    + apply Z.gtb_lt in Hrem.
      pose proof (int_wrap_range (length - res)) as Hr.
      destruct (Decode_fuel fuel d3 m2 (buffer + res) (int_wrap (length - res)) (depth + 1))
        as [[[d4 m4] res2]| | | |] eqn:Hrec; try discriminate.
      apply IH in Hrec as [Hext4 _]; [|unfold in_int in Hr; lia].
      cbn [mbind outcome_bind] in Hrun.
      assert (m' = m4) as -> by (destruct (res2 <=? 0); injection Hrun as _ <- _; reflexivity).
      split; [eapply mem_extends_trans; eassumption|].
      eapply region_defined_extends; eassumption.
    + apply Hret in Hrun as ->. split; assumption.
  - apply Hret in Hrun as ->. split; assumption.
Qed.

End DecodeMemory.

(** When the loop does not re-enter, [Decode] returns what [FillBuffer]
    returned and the padding is what is left in the destination. *)
Lemma Decode_no_reentry {B : Type} `{Backend B}
    (d : Decoder B) m buffer length b m1 res :
  paused (base d) = false ->
  FillBuffer (impl d) m buffer length = (b, m1, res) ->
  IsFinished b && looping (base d) = false ->
  0 <= length <= INT_MAX ->
  exists d' m',
    Decode d m buffer length = Done (d', m', res) /\
    (res < 0 -> region_zero m' buffer length) /\
    (0 <= res < length -> region_zero m' (buffer + res) (length - res)).
Proof.
  intros Hp Hfill Hloop Hlen.
  unfold Decode, Decode3. cbn [Decode_fuel Z.sub Z.opp Z.add Z.to_nat Pos.to_nat].
  rewrite Hp, Hfill. unfold observe. cbn [base impl calls].
  rewrite Hloop. cbn [andb].
  destruct (res <? 0) eqn:E1.
  { rewrite memset_done by lia. cbn [mbind outcome_bind].
    destruct (Decode_return_done
                (mkDecoder (base d) b (FillBufferCall buffer length res :: calls d))
                (memset_bytes m1 buffer x00 (Z.to_nat length)) res 0) as (dbg & -> & _).
    eexists _, _. split; [reflexivity|]. split.
    - intros _. apply memset_bytes_zero. lia.
    - apply Z.ltb_lt in E1. lia. }
  apply Z.ltb_ge in E1.
  destruct (res <? length) eqn:E2.
  - apply Z.ltb_lt in E2.
    rewrite int_wrap_id by (unfold in_int, INT_MIN, INT_MAX in *; lia).
    rewrite memset_done by lia. cbn [mbind outcome_bind].
    destruct (Decode_return_done
                (mkDecoder (base d) b (FillBufferCall buffer length res :: calls d))
                (memset_bytes m1 (buffer + res) x00 (Z.to_nat (length - res))) res 0)
      as (dbg & -> & _).
    eexists _, _. split; [reflexivity|]. split; [lia|].
    intros _. apply memset_bytes_zero. lia.
  - apply Z.ltb_ge in E2. cbn [mbind outcome_bind].
    destruct (Decode_return_done
                (mkDecoder (base d) b (FillBufferCall buffer length res :: calls d))
                m1 res 0) as (dbg & -> & _).
    eexists _, _. split; [reflexivity|]. split; lia.
Qed.

Lemma ShortStream_fills_reported : fills_reported ShortStream.
Proof.
  intros b m buffer length b' m' res Hfill. cbn in Hfill.
  injection Hfill as <- <- <-. split; [apply memset_bytes_extends|].
  intros i Hi. rewrite memset_bytes_inside by lia. eauto.
Qed.

(** Without a loop re-entry after a failed read, [Decode] writes only
    what [FillBuffer] writes and the bytes of its destination. *)
Lemma Decode_fuel_frame {B : Type} `{Backend B} (fuel : nat) :
  writes_within B ->
  counts_within B ->
  forall (d d' : Decoder B) m m' buffer length depth ret,
    looping (base d) = false \/ failure_not_finished B ->
    0 <= length <= INT_MAX ->
    Decode_fuel fuel d m buffer length depth = Done (d', m', ret) ->
    forall a, a < buffer \/ buffer + length <= a -> m' !! a = m !! a.
Proof.
  intros Hwithin Hcounts.
  induction fuel as [|fuel IH];
    intros d d' m m' buffer length depth ret Hslip Hlen Hrun a Ha; [discriminate|].
  cbn [Decode_fuel] in Hrun.
  destruct (paused (base d)) eqn:Hp.
  { rewrite memset_done in Hrun by lia. cbn in Hrun. injection Hrun as <- <- <-.
    apply memset_bytes_outside. lia. }
  pose proof (Hcounts (impl d) m buffer length ltac:(lia)) as Hres.
  destruct (FillBuffer (impl d) m buffer length) as [[b m1] res] eqn:Hfill.
  cbn [snd] in Hres.
  pose proof (Hwithin _ _ _ _ _ _ _ Hfill a Ha) as Hm1.
  match type of Hrun with
  | mbind _ ?pad = _ => destruct pad as [m2| | | |] eqn:Hpad; try discriminate
  end.
  assert (Hm2 : m2 !! a = m !! a).
  { destruct (res <? 0) eqn:E1.
    - rewrite memset_done in Hpad by lia. injection Hpad as <-.
      rewrite memset_bytes_outside by lia. exact Hm1.
    - apply Z.ltb_ge in E1. destruct (res <? length) eqn:E2.
      + apply Z.ltb_lt in E2.
        rewrite int_wrap_id in Hpad by (unfold in_int, INT_MIN, INT_MAX in *; lia).
        rewrite memset_done in Hpad by lia. injection Hpad as <-.
        rewrite memset_bytes_outside by lia. exact Hm1.
      + injection Hpad as <-. exact Hm1. }
  cbn [mbind outcome_bind] in Hrun.
  assert (Hret : forall (d1 : Decoder B),
             Decode_return d1 m2 res depth = Done (d', m', ret) -> m' = m2).
  { intros d1 Hr. destruct (Decode_return_done d1 m2 res depth) as (dbg & E & _).
    rewrite E in Hr. injection Hr as _ <- _. reflexivity. }
  unfold observe in Hrun. cbn [base impl calls] in Hrun.
  destruct (IsFinished b && looping (base d) && (depth <? 10)) eqn:Hloop;
    [|apply Hret in Hrun as ->; exact Hm2].
  apply andb_prop in Hloop as [Hloop _]. apply andb_prop in Hloop as [Hfin Hl].
  assert (Hfail : failure_not_finished B).
  { destruct Hslip as [Hoff | Hfail]; [congruence | exact Hfail]. }
  assert (Hpos : 0 <= res).
  { destruct (Z.lt_ge_cases res 0) as [Hneg|Hge]; [|exact Hge].
    pose proof (Hfail _ _ _ _ _ _ _ Hfill Hneg). congruence. }
  destruct (Rewind _) as [d3| | | |]; try discriminate.
  cbn [mbind outcome_bind] in Hrun.
  rewrite int_wrap_id in Hrun by (unfold in_int, INT_MIN, INT_MAX in *; lia).
  destruct (length - res >? 0) eqn:Hrem;
    [|apply Hret in Hrun as ->; exact Hm2].
  apply Z.gtb_lt in Hrem.
  destruct (Decode_fuel fuel d3 m2 (buffer + res) (length - res) (depth + 1))
    as [[[d4 m4] res2]| | | |] eqn:Hrec; try discriminate.
  cbn [mbind outcome_bind] in Hrun.
  assert (m' = m4) as ->
    by (destruct (res2 <=? 0); injection Hrun as _ <- _; reflexivity).
  rewrite (IH d3 d4 m2 m4 (buffer + res) (length - res) (depth + 1) res2
             (or_intror Hfail) ltac:(lia) Hrec a ltac:(lia)).
  exact Hm2.
Qed.

(** C1, as the code has it. For a destination of [length] bytes
    ([0 <= length]) and a backend that has written the bytes it reports
    and can rewind, [Decode(buffer, length)] returns and leaves all
    [length] bytes of the destination written, whatever [FillBuffer]
    returned. Left out is the loop re-entry after a failed read: either
    looping is off, or a [FillBuffer] that returned a negative number has
    not left the stream finished. With a [FillBuffer] that stays within
    its buffer and its request, no byte outside the destination is
    changed. The value returned is [length] when the decoder is paused.
    When it is not paused and the loop does not re-enter (the backend is
    not at its end, or looping is off), the value returned is the result
    of [FillBuffer] itself, negative and short results included: after a
    negative result the whole destination is zero, after a short result
    [res] the bytes [buffer[res..length)] are zero. *)
Theorem Decode_fills_destination {B : Type} `{Backend B}
    (d : Decoder B) (m : mem) (buffer length : Z) :
  fills_reported B ->
  rewind_works B ->
  looping (base d) = false \/ failure_not_finished B ->
  0 <= length <= INT_MAX ->
  exists d' m' ret,
    Decode d m buffer length = Done (d', m', ret) /\
    region_defined m' buffer length /\
    (writes_within B -> counts_within B ->
     forall a, a < buffer \/ buffer + length <= a -> m' !! a = m !! a) /\
    (paused (base d) = true -> ret = length /\ region_zero m' buffer length) /\
    (paused (base d) = false ->
     forall b m1 res,
       FillBuffer (impl d) m buffer length = (b, m1, res) ->
       IsFinished b && looping (base d) = false ->
       ret = res /\
       (res < 0 -> region_zero m' buffer length) /\
       (0 <= res < length -> region_zero m' (buffer + res) (length - res))).
Proof.
  intros Hfills Hrewind Hslip Hlen.
  destruct (Decode_fuel_returns Hrewind 11 d m buffer length 0)
    as (d' & m' & ret & new & Hrun & _); [lia | lia | exact Hlen |].
  destruct (Decode_fuel_memory Hfills 11 d d' m m' buffer length 0 ret Hlen Hrun)
    as [_ Hdef].
  exists d', m', ret. split; [exact Hrun|]. split; [exact Hdef|]. split; [|split].
  - intros Hwithin Hcounts.
    exact (Decode_fuel_frame 11 Hwithin Hcounts d d' m m' buffer length 0 ret
             Hslip Hlen Hrun).
  - intros Hp. cbn [Decode_fuel] in Hrun. rewrite Hp in Hrun.
    rewrite memset_done in Hrun by lia. cbn in Hrun. injection Hrun as _ <- <-.
    split; [reflexivity|]. apply memset_bytes_zero. lia.
  - intros Hp b m1 res Hfill Hloop.
    destruct (Decode_no_reentry d m buffer length b m1 res Hp Hfill Hloop Hlen)
      as (d2 & m2 & Hrun2 & Hneg & Hshort).
    unfold Decode, Decode3 in Hrun2. change (S (Z.to_nat (10 - 0))) with 11%nat in Hrun2.
    rewrite Hrun in Hrun2. injection Hrun2 as _ <- <-.
    split; [reflexivity|]. split; assumption.
Qed.

Lemma ShortStream_failure_not_finished : failure_not_finished ShortStream.
Proof.
  intros b m buffer length b' m' res Hfill Hneg. cbn in Hfill.
  injection Hfill as _ _ <-. lia.
Qed.

Lemma ShortStream_writes_within : writes_within ShortStream.
Proof.
  intros b m buffer length b' m' res Hfill a Ha. cbn in Hfill.
  injection Hfill as _ <- _. apply memset_bytes_outside. lia.
Qed.

Lemma ShortStream_counts_within : counts_within ShortStream.
Proof. intros b m buffer length Hlen. cbn. unfold INT_MIN. lia. Qed.

Lemma Decode_fills_destination_witness :
  exists d' m' ret,
    Decode (short_looping 3) ∅ 100 8 = Done (d', m', ret) /\
    region_defined m' 100 8 /\
    m' !! 99 = None /\ m' !! 108 = None.
Proof.
  destruct (Decode_fills_destination (short_looping 3) ∅ 100 8)
    as (d' & m' & ret & Hrun & Hdef & Hframe & _).
  - exact ShortStream_fills_reported.
  - intros b. reflexivity.
  - right. exact ShortStream_failure_not_finished.
  - unfold INT_MAX. lia.
  - exists d', m', ret. split; [exact Hrun|]. split; [exact Hdef|].
    split; (rewrite (Hframe ShortStream_writes_within ShortStream_counts_within)
              by lia; reflexivity).
Defined.

(** The input that C1 leaves out. A negative result on a finished,
    looping stream: the nested call is given [&buffer[res]], one byte
    before the destination, and one more byte at every level. With the
    destination at 100 the ten bytes from 90 on are written as well. *)
Example Decode_negative_result_reentry :
  exists d' m',
    Decode broken_looping ∅ 100 4 = Done (d', m', -1) /\
    loop_count (base d') = 10 /\
    m' !! 99 = Some x00 /\ m' !! 90 = Some x00 /\ m' !! 89 = None.
Proof. eexists _, _. vm_compute. repeat split. Qed.

(** That decoder is outside the conditions of C1: it loops, and its
    failed read leaves it finished. *)
Lemma broken_looping_left_out :
  looping (base broken_looping) = true /\ ~ failure_not_finished BrokenStream.
Proof.
  split; [reflexivity|]. intros Hfail.
  pose proof (Hfail broken_stream ∅ 0 0 broken_stream ∅ (-1) eq_refl ltac:(lia)) as Hfin.
  discriminate Hfin.
Qed.

(** C1 as stated fails: the sentinel decoder of this file, asked for four
    bytes, zero-fills them and returns the -1 of its [FillBuffer]; a
    stream that ends after three of eight bytes makes [Decode] return 3. *)
Lemma Decode_returns_less_than_length :
  (exists d' m',
     Decode (WMAUnsupportedFormatDecoder idle_decoder) ∅ 100 4 = Done (d', m', -1) /\
     load_bytes m' 100 4 = [x00; x00; x00; x00] /\ -1 <> 4) /\
  (exists d' m',
     Decode (mkDecoder idle_decoder (mkShortStream 3) []) ∅ 100 8 = Done (d', m', 3) /\
     load_bytes m' 100 8 = [x01; x01; x01; x00; x00; x00; x00; x00] /\ 3 <> 8).
Proof.
  split; eexists _, _; vm_compute; repeat split; discriminate.
Qed.

(** ** DecodeAll *)

(** C10. [DecodeAll] on a decoder that is finished before the first chunk
    is read returns the first chunk as it was allocated: a buffer of
    exactly 8192 zero bytes, not an empty one. The body of the loop, which
    would trim the buffer, is not entered: the decoder comes back
    untouched. *)
Theorem DecodeAll_finished_at_start {B : Type} `{Backend B}
    (d : Decoder B) (fuel : nat) :
  IsFinished (impl d) = true ->
  exists buffer,
    DecodeAll (S fuel) d = Done (d, buffer) /\
    buffer = replicate (Z.to_nat 8192) x00 /\
    Z.of_nat (List.length buffer) = 8192 /\
    buffer <> [].
Proof.
  intros Hfin. exists (replicate (Z.to_nat 8192) x00).
  split; [|split; [reflexivity|split]].
  - unfold DecodeAll, vector_resize.
    change (size_wrap buffer_size) with 8192.
    change (8192 >? vector_max_size) with false.
    cbn [mbind outcome_bind DecodeAll_loop]. rewrite Hfin. cbn [negb].
    rewrite resize_nil. reflexivity.
  - rewrite length_replicate. lia.
  - intros Habs. apply (f_equal (@List.length byte)) in Habs.
    rewrite length_replicate in Habs. cbn [List.length] in Habs. lia.
Qed.

Lemma DecodeAll_finished_at_start_witness :
  exists buffer,
    DecodeAll 1 (WMAUnsupportedFormatDecoder idle_decoder)
      = Done (WMAUnsupportedFormatDecoder idle_decoder, buffer) /\
    Z.of_nat (List.length buffer) = 8192.
Proof.
  destruct (DecodeAll_finished_at_start (WMAUnsupportedFormatDecoder idle_decoder) 0)
    as (buffer & Hrun & _ & Hlen & _); [reflexivity|].
  exists buffer. split; assumption.
Defined.

(** ** Sample sizes *)

Lemma all_formats_complete (f : Format) : In f all_formats.
Proof. destruct f; cbn; tauto. Qed.

Lemma has_width_enumerator (v : FormatValue) :
  has_width v -> In v (map Enumerator all_formats).
Proof.
  intros [w Hw]. destruct v as [f|raw]; [|discriminate Hw].
  apply in_map, all_formats_complete.
Qed.

(** C8, as the code has it. The lookup is total over the seven
    enumerators it names, S8 and U8 of width 1, S16 and U16 of width 2,
    S32, U32 and F32 of width 4, so the width of an enumerated format is
    1, 2 or 4; for a value that is none of the enumerators the assertion
    "Bad format" fails and no width is returned. *)
Theorem GetSamplesizeForFormat_table :
  map GetSamplesizeForFormat (map Enumerator all_formats)
    = map Done [1; 1; 2; 2; 4; 4; 4] /\
  (forall f : Format,
      exists w, GetSamplesizeForFormat (Enumerator f) = Done w /\
                (w = 1 \/ w = 2 \/ w = 4)) /\
  (forall raw : Z,
      GetSamplesizeForFormat (NotEnumerator raw) = AssertFailed "Bad format") /\
  (forall v : FormatValue,
      has_width v <-> exists f, v = Enumerator f).
Proof.
  split; [reflexivity|]. split; [|split; [reflexivity|]].
  - intros f. destruct f; cbn; eauto 6.
  - intros v. split.
    + intros [w Hw]. destruct v as [f|raw]; [eauto | discriminate Hw].
    + intros [f ->]. destruct f; cbn; unfold has_width; cbn; eauto.
Qed.

(** C8 as stated fails: there are no eight different values with a width,
    and the widths of the enumerators are not eight numbers. *)
Lemma GetSamplesizeForFormat_not_eight :
  (~ exists l : list FormatValue,
       NoDup l /\ List.length l = 8%nat /\ Forall has_width l) /\
  map GetSamplesizeForFormat (map Enumerator all_formats)
    <> map Done [1; 1; 2; 2; 4; 4; 4; 4].
Proof.
  split; [|discriminate].
  intros (l & Hnd & Hlen & Hall).
  assert (Hsub : l ⊆+ map Enumerator all_formats).
  { apply NoDup_submseteq; [exact Hnd|].
    intros v Hv. apply list_elem_of_In, has_width_enumerator.
    rewrite Forall_forall in Hall. apply Hall, Hv. }
  apply submseteq_length in Hsub.
  rewrite Hlen in Hsub. cbn in Hsub. lia.
Qed.

(** ** The factory *)

Lemma wma_error_message_nonempty : wma_error_message <> "".
Proof. discriminate. Qed.

(** C9. For a usable stream whose next four bytes, the magic that
    [Create] reads, are the WMA signature [0x30 0x26 0xB2 0x75], under
    every build configuration and whatever the collaborators answer,
    [Create] returns the sentinel decoder and not [nullptr]: its
    [IsFinished()] is true from the start and its error text is not
    empty. No earlier step of the classifier matches such a magic; the
    stream is back at offset 0. *)
Theorem Create_wma_sentinel (cfg : BuildConfig) (env : Collaborators)
    (mpg123_works : bool) (stream : InputStream) (resample : bool) :
  stream_good stream = true ->
  take 4 (drop (Z.to_nat (position stream)) (contents stream)) = wma_magic ->
  exists stream' d,
    Create cfg env mpg123_works stream resample
      = (stream', mpg123_works, Some (Sentinel d)) /\
    d = WMAUnsupportedFormatDecoder (AudioDecoder_fresh env) /\
    IsFinished (impl d) = true /\
    created_IsFinished (Sentinel d) = Some true /\
    GetError (base d) <> "" /\
    position stream' = 0 /\ stream_good stream' = true.
Proof.
  intros Hgood Hmagic.
  destruct stream as [bytes pos eof fail bad name past].
  unfold stream_good in Hgood. cbn in Hgood, Hmagic.
  apply negb_true_iff in Hgood.
  apply orb_false_elim in Hgood as [Hgood ->].
  apply orb_false_elim in Hgood as [-> ->].
  eexists _, _.
  split.
  { unfold Create, ReadIntoObj, stream_read, stream_good.
    cbn [eofbit failbit badbit orb negb position contents List.length].
    rewrite Hmagic.
    cbn [wma_magic List.length Nat.ltb Nat.leb stream_fail failbit badbit orb negb
         read_into drop app].
    change (strncmp wma_magic (lit "MThd") 4 =? 0) with false. cbn iota.
    unfold Create_ogg.
    change (strncmp wma_magic (lit "OggS") 4 =? 0) with false. cbn iota.
    unfold Create_fastwav.
    change (strncmp wma_magic (lit "RIFF") 4 =? 0) with false.
    rewrite andb_false_r.
    unfold Create_common.
    change (strncmp wma_magic (lit "RIFF") 4 =? 0) with false.
    change (strncmp wma_magic (lit "FORM") 4 =? 0) with false.
    change (strncmp wma_magic (lit "OggS") 4 =? 0) with false.
    change (strncmp wma_magic (lit "fLaC") 4 =? 0) with false.
    change (memcmp wma_magic wma_magic 4 =? 0) with true.
    cbn [orb]. reflexivity. }
  split; [reflexivity|]. split; [reflexivity|]. split; [reflexivity|].
  split; [exact wma_error_message_nonempty|].
  unfold seekg, stream_fail, stream_good.
  cbn [failbit badbit eofbit orb contents position Z.leb Z.compare andb negb].
  assert (Hlen : (0 <=? Z.of_nat (List.length bytes)) = true) by (apply Z.leb_le; lia).
  rewrite Hlen. split; reflexivity.
Qed.

Lemma Create_wma_sentinel_witness :
  exists stream' d,
    Create full_build no_claims true (stream_of (wma_magic ++ [x02; x00])) false
      = (stream', true, Some (Sentinel d)) /\
    IsFinished (impl d) = true /\
    GetError (base d) <> "".
Proof.
  destruct (Create_wma_sentinel full_build no_claims true
              (stream_of (wma_magic ++ [x02; x00])) false)
    as (stream' & d & Hrun & _ & Hfin & _ & Herr & _);
    [reflexivity | reflexivity |].
  exists stream', d. repeat split; assumption.
Defined.

(** The last lines of [Create] do leave the stream rewound. *)
Lemma Create_nothing_rewound (works : bool) (stream : InputStream) :
  stream_rewound (fst (fst (Create_nothing works stream))).
Proof.
  unfold Create_nothing, stream_rewound, seekg, stream_clear, stream_fail.
  cbn [fst failbit badbit orb contents position Z.leb Z.compare andb].
  assert (Hlen : (0 <=? Z.of_nat (List.length (contents stream))) = true)
    by (apply Z.leb_le; lia).
  rewrite Hlen. cbn. repeat split.
Qed.

(** C3 on a failing input. A stream of two bytes cannot supply the magic:
    [Create] returns [nullptr] at once, under every configuration, and
    the stream is left behind its two bytes with [eofbit] and [failbit]
    set. In a build with Opus, an Ogg stream shorter than the offset of
    the first probe gives [nullptr] with the stream failed at offset 28.
    Neither stream is at offset 0 with its flags clear. *)
Theorem Create_nullptr_stream_not_rewound :
  (forall cfg env works resample,
      exists stream',
        Create cfg env works (stream_of [x4f; x67]) resample = (stream', works, None) /\
        position stream' = 2 /\ eofbit stream' = true /\ failbit stream' = true /\
        tellg stream' = -1 /\
        ~ stream_rewound stream') /\
  (exists stream',
      Create full_build no_claims true
        (stream_of (lit "OggS" ++ [x00; x02; x00; x00; x00; x00])) false
        = (stream', true, None) /\
      position stream' = 28 /\ eofbit stream' = true /\ failbit stream' = true /\
      ~ stream_rewound stream').
Proof.
  split.
  - intros cfg env works resample. eexists. split; [reflexivity|].
    cbn. repeat split. intros [Hpos _]. discriminate Hpos.
  - eexists. split; [vm_compute; reflexivity|].
    cbn. repeat split. intros [Hpos _]. discriminate Hpos.
Qed.

(** ** Doubles *)

Lemma SFcompare_antisym x y : SFcompare y x = option_map CompOpp (SFcompare x y).
Proof.
  destruct x as [sx|sx| |sx mx ex], y as [sy|sy| |sy my ey]; cbn;
    try destruct sx; try destruct sy; try reflexivity.
  - rewrite (Z.compare_antisym ex ey). destruct (ex ?= ey); cbn; try reflexivity.
    rewrite (Pos.compare_cont_antisym mx my Eq). reflexivity.
  - rewrite (Z.compare_antisym ex ey). destruct (ex ?= ey); cbn; try reflexivity.
    rewrite (Pos.compare_cont_antisym mx my Eq). reflexivity.
Qed.

Lemma SFcompare_nan_r x y : SFcompare x y = None -> is_nan x = true \/ is_nan y = true.
Proof.
  destruct x as [sx|sx| |sx mx ex], y as [sy|sy| |sy my ey]; cbn; auto; discriminate.
Qed.

Lemma clamp_volume_in_range v :
  is_nan v = false -> dle d0 (clamp_volume v) && dle (clamp_volume v) d100 = true.
Proof.
  intros Hv. unfold clamp_volume, dgt, dlt, dle, SFltb, SFleb.
  destruct (SFcompare d100 v) as [c1|] eqn:E1.
  2:{ apply SFcompare_nan_r in E1 as [E|E]; [discriminate E | congruence]. }
  destruct (SFcompare v d0) as [c2|] eqn:E2.
  2:{ apply SFcompare_nan_r in E2 as [E|E]; [congruence | discriminate E]. }
  destruct c1; try reflexivity; destruct c2; try reflexivity;
  rewrite (SFcompare_antisym v d0), (SFcompare_antisym d100 v), E1, E2; reflexivity.
Qed.

Lemma digits2_pos_iter_xO p k :
  digits2_pos (Pos.iter xO p k) = (digits2_pos p + k)%positive.
Proof.
  induction k as [|k IH] using Pos.peano_ind.
  - cbn. lia.
  - rewrite Pos.iter_succ. cbn [digits2_pos]. rewrite IH. lia.
Qed.

Lemma fexp_small d : -1021 <= d -> fexp 53 1024 d = d - 53.
Proof. unfold fexp, emin. lia. Qed.

Lemma binary_round_aux_canonical s m e :
  Zpos (digits2_pos m) = 53 -> -1074 <= e <= 971 ->
  binary_round_aux 53 1024 s (Zpos m) e loc_Exact = S754_finite s m e.
Proof.
  intros Hd He.
  unfold binary_round_aux, shr_fexp. cbn [Zdigits2 shr_record_of_loc].
  rewrite Hd, fexp_small by lia.
  replace (53 + e - 53 - e) with 0 by lia. cbn [shr shr_m loc_of_shr_record round_nearest_even].
  cbn [Zdigits2 shr_record_of_loc]. rewrite Hd, fexp_small by lia.
  replace (53 + e - 53 - e) with 0 by lia. cbn [shr shr_m].
  destruct (Z.leb_spec e (1024 - 53)); [reflexivity | lia].
Qed.

Lemma binary_round_small s p :
  Zpos (digits2_pos p) <= 53 ->
  exists m, binary_round 53 1024 s p 0 = S754_finite s m (Zpos (digits2_pos p) - 53)
            /\ Zpos (digits2_pos m) = 53.
Proof.
  intros Hd. unfold binary_round. rewrite Z.add_0_r, fexp_small by lia.
  unfold shl_align. rewrite Z.sub_0_r.
  destruct (Zpos (digits2_pos p) - 53) as [|k|k] eqn:Ek; try lia.
  - exists p. split; [|lia]. apply binary_round_aux_canonical; lia.
  - exists (Pos.iter xO p k).
    assert (Hk : Zpos (digits2_pos (Pos.iter xO p k)) = 53).
    { rewrite digits2_pos_iter_xO. lia. }
    split; [|exact Hk]. apply binary_round_aux_canonical; lia.
Qed.

Lemma digits2_pos_size p : digits2_pos p = Pos.size p.
Proof. induction p as [p IH|p IH|]; cbn; congruence. Qed.

Lemma digits2_pos_bounds p :
  2 ^ (Zpos (digits2_pos p) - 1) <= Zpos p < 2 ^ Zpos (digits2_pos p).
Proof.
  rewrite digits2_pos_size.
  pose proof (Pos.size_gt p) as Hgt. pose proof (Pos.size_le p) as Hle.
  apply Pos2Z.pos_lt_pos in Hgt. apply Pos2Z.pos_le_pos in Hle.
  rewrite Pos2Z.inj_pow in Hgt, Hle.
  split; [|exact Hgt].
  replace (Zpos (Pos.size p)) with (Z.succ (Zpos (Pos.size p) - 1)) in Hle by lia.
  rewrite Z.pow_succ_r in Hle by lia. lia.
Qed.

Lemma digits2_pos_le p k : 0 <= k -> Zpos p < 2 ^ k -> Zpos (digits2_pos p) <= k.
Proof.
  intros Hk Hp. destruct (Z_le_gt_dec (Zpos (digits2_pos p)) k) as [|Hgt]; [assumption|].
  pose proof (digits2_pos_bounds p) as [Hlo _].
  assert (2 ^ k <= 2 ^ (Zpos (digits2_pos p) - 1)) by (apply Z.pow_le_mono_r; lia).
  lia.
Qed.

(** The conversion of an [int] is exact: the number keeps its sign and is
    stored with a full mantissa. *)
Lemma of_int_cases n :
  - 2 ^ 53 < n < 2 ^ 53 ->
  match n with
  | Z0 => of_int n = S754_zero false
  | Zpos p => exists m, of_int n = S754_finite false m (Zpos (digits2_pos p) - 53)
                        /\ Zpos (digits2_pos m) = 53
  | Zneg p => exists m, of_int n = S754_finite true m (Zpos (digits2_pos p) - 53)
                        /\ Zpos (digits2_pos m) = 53
  end.
Proof.
  intros Hn. destruct n as [|p|p]; [reflexivity| |];
    apply binary_round_small, digits2_pos_le; lia.
Qed.

Lemma of_int_le_zero n : - 2 ^ 53 < n < 2 ^ 53 -> dle (of_int n) d0 = (n <=? 0).
Proof.
  intros Hn. pose proof (of_int_cases n Hn) as Hc.
  destruct n as [|p|p]; [reflexivity| |]; destruct Hc as (m & -> & _); reflexivity.
Qed.

Lemma of_int_finite n : - 2 ^ 53 < n < 2 ^ 53 -> is_finite (of_int n) = true.
Proof.
  intros Hn. pose proof (of_int_cases n Hn) as Hc.
  destruct n as [|p|p]; [reflexivity| |]; destruct Hc as (m & -> & _); reflexivity.
Qed.

Lemma in_int_small n : in_int n -> - 2 ^ 53 < n < 2 ^ 53.
Proof. unfold in_int, INT_MIN, INT_MAX. lia. Qed.

(** *** Rounding never leaves the numbers *)

Lemma shr_record_of_loc_m m l : shr_m (shr_record_of_loc m l) = m.
Proof. destruct l as [|[]]; reflexivity. Qed.

Lemma shr_1_bound mrs k :
  0 <= k -> 0 <= shr_m mrs < 2 ^ k ->
  0 <= shr_m (shr_1 mrs) < 2 ^ Z.max 0 (k - 1).
Proof.
  intros Hk Hm. destruct mrs as [m r s]. cbn [shr_m] in Hm.
  destruct (Z.eq_dec k 0) as [->|Hk0].
  { cbn in Hm. assert (m = 0) as -> by lia. cbn. lia. }
  rewrite Z.max_r by lia.
  replace k with (Z.succ (k - 1)) in Hm by lia.
  rewrite Z.pow_succ_r in Hm by lia.
  destruct m as [|[p|p|]|p]; cbn [shr_1 shr_m]; lia.
Qed.

Lemma iter_shr_1_bound n : forall mrs k,
  0 <= k -> 0 <= shr_m mrs < 2 ^ k ->
  0 <= shr_m (SpecFloat.iter_pos shr_1 n mrs) < 2 ^ Z.max 0 (k - Zpos n).
Proof.
  induction n as [n IH|n IH|]; intros mrs k Hk Hm; cbn [SpecFloat.iter_pos].
  - pose proof (shr_1_bound mrs k Hk Hm) as H1.
    apply IH in H1; [|lia]. apply IH in H1; [|lia].
    replace (Z.max 0 (k - Zpos n~1))
      with (Z.max 0 (Z.max 0 (Z.max 0 (k - 1) - Zpos n) - Zpos n)) by lia.
    exact H1.
  - pose proof (IH mrs k Hk Hm) as H1. apply IH in H1; [|lia].
    replace (Z.max 0 (k - Zpos n~0))
      with (Z.max 0 (Z.max 0 (k - Zpos n) - Zpos n)) by lia.
    exact H1.
  - apply shr_1_bound; assumption.
Qed.

Lemma Zdigits2_le m k : 0 <= k -> 0 <= m < 2 ^ k -> Zdigits2 m <= k.
Proof.
  intros Hk Hm. destruct m as [|p|p]; cbn [Zdigits2]; [lia| |lia].
  apply digits2_pos_le; lia.
Qed.

Lemma shr_fexp_bound m e l k :
  0 <= k -> 0 <= m < 2 ^ k ->
  exists k',
    0 <= k' /\
    0 <= shr_m (fst (shr_fexp 53 1024 m e l)) < 2 ^ k' /\
    k' + snd (shr_fexp 53 1024 m e l) <= Z.max (k + e) (snd (shr_fexp 53 1024 m e l)) /\
    snd (shr_fexp 53 1024 m e l) <= Z.max e (Z.max (k + e - 53) (-1074)).
Proof.
  intros Hk Hm. pose proof (Zdigits2_le m k Hk Hm) as Hd.
  unfold shr_fexp, shr.
  assert (Hf : fexp 53 1024 (Zdigits2 m + e) <= Z.max (k + e - 53) (-1074))
    by (unfold fexp, emin; lia).
  destruct (fexp 53 1024 (Zdigits2 m + e) - e) as [|n|n] eqn:En; cbn [fst snd].
  - exists k. rewrite shr_record_of_loc_m. lia.
  - exists (Z.max 0 (k - Zpos n)).
    split; [lia|]. split; [|lia].
    apply iter_shr_1_bound; [exact Hk|]. rewrite shr_record_of_loc_m. exact Hm.
  - exists k. rewrite shr_record_of_loc_m. lia.
Qed.

Lemma round_nearest_even_bound m l :
  0 <= m -> 0 <= round_nearest_even m l <= m + 1.
Proof.
  intros Hm. destruct l as [|[]]; cbn [round_nearest_even]; try lia.
  destruct (Z.even m); lia.
Qed.

(** A mantissa that is not negative is rounded to a number or to an
    infinity, and to a number when the magnitude is far from the bound
    of the format. *)
Lemma binary_round_aux_cases s m e l k :
  0 <= k -> 0 <= m < 2 ^ k ->
  is_nan (binary_round_aux 53 1024 s m e l) = false /\
  (e <= 900 -> k + e <= 900 -> is_finite (binary_round_aux 53 1024 s m e l) = true).
Proof.
  intros Hk Hm. unfold binary_round_aux.
  destruct (shr_fexp_bound m e l k Hk Hm) as (k1 & Hk1 & Hm1 & Hsum1 & He1).
  destruct (shr_fexp 53 1024 m e l) as [mrs1 e1]. cbn [fst snd] in *.
  pose proof (round_nearest_even_bound (shr_m mrs1) (loc_of_shr_record mrs1)) as Hr.
  set (m2 := round_nearest_even (shr_m mrs1) (loc_of_shr_record mrs1)) in *.
  assert (Hm2 : 0 <= m2 < 2 ^ (k1 + 1)).
  { rewrite Z.pow_add_r by lia. lia. }
  destruct (shr_fexp_bound m2 e1 loc_Exact (k1 + 1)) as (k2 & Hk2 & Hm3 & _ & He2);
    [lia | exact Hm2 |].
  destruct (shr_fexp 53 1024 m2 e1 loc_Exact) as [mrs2 e2]. cbn [fst snd] in *.
  destruct (shr_m mrs2) as [|p|p]; [split; reflexivity | | lia].
  split; [destruct (e2 <=? 1024 - 53); reflexivity|].
  intros He Hke.
  destruct (Z.leb_spec e2 (1024 - 53)); [reflexivity | lia].
Qed.

Lemma binary_round_not_nan s p e : is_nan (binary_round 53 1024 s p e) = false.
Proof.
  unfold binary_round. destruct (shl_align _ _ _) as [mz ez].
  pose proof (digits2_pos_bounds mz) as Hb.
  apply (binary_round_aux_cases s (Zpos mz) ez loc_Exact (Zpos (digits2_pos mz))); lia.
Qed.

Lemma binary_normalize_not_nan m e sz : is_nan (binary_normalize 53 1024 m e sz) = false.
Proof. destruct m; [reflexivity | apply binary_round_not_nan ..]. Qed.

Lemma dmul_not_nan x y :
  is_finite x = true -> is_finite y = true -> is_nan (dmul x y) = false.
Proof.
  destruct x as [sx|sx| |sx mx ex], y as [sy|sy| |sy my ey];
    try discriminate; intros _ _; try reflexivity.
  unfold dmul, SFmul.
  pose proof (digits2_pos_bounds (mx * my)) as Hb.
  apply (binary_round_aux_cases _ (Zpos (mx * my)) _ loc_Exact
           (Zpos (digits2_pos (mx * my)))); lia.
Qed.

Lemma dadd_not_nan x y :
  is_finite x = true -> is_nan y = false -> is_nan (dadd x y) = false.
Proof.
  destruct x as [sx|sx| |sx mx ex], y as [sy|sy| |sy my ey];
    try discriminate; intros _ _; try reflexivity.
  - destruct sx, sy; reflexivity.
  - apply binary_normalize_not_nan.
Qed.

Lemma ddiv_moderate_finite (x : double) (t : Z) :
  moderate x = true -> 0 < t -> in_int t -> is_finite (ddiv x (of_int t)) = true.
Proof.
  intros Hx Ht Hint.
  pose proof (of_int_cases t (in_int_small t Hint)) as Hc.
  destruct t as [|p|p]; try lia. destruct Hc as (my & -> & Hmy).
  pose proof (digits2_pos_bounds p) as Hp.
  assert (Hdp : 1 <= Zpos (digits2_pos p)) by lia.
  set (ey := Zpos (digits2_pos p) - 53) in *.
  destruct x as [sx|sx| |sx mx ex]; try discriminate Hx; [reflexivity|].
  cbn [moderate] in Hx. apply andb_prop in Hx as [Hmx Hex].
  apply Z.ltb_lt in Hmx. apply Z.leb_le in Hex.
  unfold ddiv, SFdiv, SFdiv_core_binary.
  set (e' := Z.min _ (ex - ey)).
  set (m' := match ex - ey - e' with
             | 0 => Zpos mx
             | Zpos _ => Z.shiftl (Zpos mx) (ex - ey - e')
             | Zneg _ => 0
             end).
  assert (He' : e' <= ex - ey) by (unfold e'; lia).
  assert (Hm' : 0 <= m' < 2 ^ (53 + (ex - ey - e'))).
  { unfold m'. destruct (ex - ey - e') as [|s|s] eqn:Es; try lia.
    rewrite Z.shiftl_mul_pow2 by lia. rewrite Z.pow_add_r by lia.
    assert (0 < 2 ^ Zpos s) by (apply Z.pow_pos_nonneg; lia). nia. }
  destruct (Z.div_eucl m' (Zpos my)) as [q r] eqn:Ediv.
  assert (Hq : q = m' / Zpos my) by (unfold Z.div; rewrite Ediv; reflexivity).
  assert (Hq0 : 0 <= q <= m').
  { subst q. split; [apply Z.div_pos; lia|].
    apply Z.div_le_upper_bound; [lia | nia]. }
  apply (binary_round_aux_cases _ q e' _ (53 + (ex - ey - e'))); unfold ey in *; lia.
Qed.

Lemma in_range_finite v : dle d0 v && dle v d100 = true -> is_finite v = true.
Proof.
  destruct v as [s|s| |s m e]; try reflexivity; try destruct s; discriminate.
Qed.

Lemma of_int_percent (v : Z) : 0 <= v <= 100 -> dle d0 (of_int v) && dle (of_int v) d100 = true.
Proof.
  intros Hv.
  assert (Hall : forallb (fun v => dle d0 (of_int v) && dle (of_int v) d100) (seqZ 0 101) = true)
    by (vm_compute; reflexivity).
  rewrite forallb_forall in Hall. apply Hall, list_elem_of_In, elem_of_seqZ. lia.
Qed.

Lemma dsub_percent_moderate (b e : Z) :
  0 <= b <= 100 -> 0 <= e <= 100 -> moderate (dsub (of_int e) (of_int b)) = true.
Proof.
  intros Hb He.
  assert (Hall : forallb (fun e => forallb (fun b => moderate (dsub (of_int e) (of_int b)))
                                     (seqZ 0 101)) (seqZ 0 101) = true)
    by (vm_compute; reflexivity).
  rewrite forallb_forall in Hall.
  specialize (Hall e). rewrite forallb_forall in Hall.
  apply Hall; apply list_elem_of_In, elem_of_seqZ; lia.
Qed.

(** ** The fade envelope *)

Lemma Update_idle delta a : dle (fade_time a) d0 = true -> Update delta a = a.
Proof. intros Hidle. unfold Update. rewrite Hidle. reflexivity. Qed.

Lemma Updates_idle deltas : forall a,
  dle (fade_time a) d0 = true ->
  fold_left (fun s delta => Update delta s) deltas a = a.
Proof.
  induction deltas as [|delta deltas IH]; intros a Hidle; [reflexivity|].
  cbn [fold_left]. rewrite Update_idle by exact Hidle. apply IH, Hidle.
Qed.

Lemma SetVolume_ready v a :
  0 <= v <= 100 -> fade_ready a -> fade_ready (SetVolume v a).
Proof.
  intros Hv [_ Hstep]. split; [|exact Hstep].
  unfold volume_in_range, SetVolume. cbn [volume set_volume]. apply of_int_percent, Hv.
Qed.

Lemma SetFade_ready b e t a :
  0 <= b <= 100 -> 0 <= e <= 100 -> in_int t ->
  fade_ready a -> fade_ready (SetFade b e t a).
Proof.
  intros Hb He Ht [_ Hstep]. unfold SetFade.
  rewrite (of_int_le_zero t (in_int_small t Ht)).
  destruct (Z.leb_spec t 0) as [|Hpos].
  { split; [apply of_int_percent, He | exact Hstep]. }
  destruct (b =? e).
  { split; [apply of_int_percent, He | exact Hstep]. }
  split; [apply of_int_percent, Hb|].
  cbn [delta_step set_delta_step fade_end volume fade_time set_fade_time
       set_fade_end set_volume].
  apply ddiv_moderate_finite; [apply dsub_percent_moderate; assumption | lia | exact Ht].
Qed.

Lemma Update_ready delta a : in_int delta -> fade_ready a -> fade_ready (Update delta a).
Proof.
  intros Hd [Hvol Hstep]. unfold Update.
  destruct (dle (fade_time a) d0); [split; assumption|].
  split; [|exact Hstep].
  unfold volume_in_range. cbn [volume delta_step set_fade_time set_volume].
  apply clamp_volume_in_range, dadd_not_nan.
  - apply in_range_finite, Hvol.
  - apply dmul_not_nan; [apply of_int_finite, in_int_small, Hd | exact Hstep].
Qed.

Lemma run_op_ready o a : op_in_range o -> fade_ready a -> fade_ready (run_op o a).
Proof.
  destruct o as [v|b e t|delta]; cbn [op_in_range run_op].
  - apply SetVolume_ready.
  - intros (Hb & He & Ht). apply SetFade_ready; assumption.
  - apply Update_ready.
Qed.

(** C7. [SetFade(begin, end, duration)] with [duration <= 0] or
    [begin == end] sets the volume to [end] at once and leaves no fade
    running (the remaining time is 0), so every later [Update], and every
    run of them, changes nothing; the other members are untouched.
    Otherwise it sets the volume to [begin], remembers [end] as the
    target and [duration] as the remaining time, and the step is
    [(end - begin) / duration], computed on doubles. *)
Theorem SetFade_cases (a : AudioDecoder) (begin end_ duration : Z) :
  in_int duration ->
  (duration <= 0 \/ begin = end_ ->
   SetFade begin end_ duration a = set_volume (of_int end_) (set_fade_time d0 a) /\
   volume (SetFade begin end_ duration a) = of_int end_ /\
   fade_time (SetFade begin end_ duration a) = d0 /\
   (forall delta,
       Update delta (SetFade begin end_ duration a) = SetFade begin end_ duration a) /\
   (forall deltas,
       fold_left (fun s delta => Update delta s) deltas (SetFade begin end_ duration a)
       = SetFade begin end_ duration a)) /\
  (0 < duration /\ begin <> end_ ->
   volume (SetFade begin end_ duration a) = of_int begin /\
   fade_end (SetFade begin end_ duration a) = of_int end_ /\
   fade_time (SetFade begin end_ duration a) = of_int duration /\
   delta_step (SetFade begin end_ duration a)
     = ddiv (dsub (of_int end_) (of_int begin)) (of_int duration)).
Proof.
  intros Hdur. pose proof (of_int_le_zero duration (in_int_small _ Hdur)) as Hle.
  split.
  - intros Hnow.
    assert (Hset : SetFade begin end_ duration a
                   = set_volume (of_int end_) (set_fade_time d0 a)).
    { unfold SetFade. rewrite Hle.
      destruct (Z.leb_spec duration 0) as [|Hpos]; [reflexivity|].
      destruct Hnow as [Hneg | ->]; [lia|]. rewrite Z.eqb_refl. reflexivity. }
    rewrite Hset. split; [reflexivity|]. split; [reflexivity|]. split; [reflexivity|].
    split.
    + intros delta. apply Update_idle. reflexivity.
    + intros deltas. apply Updates_idle. reflexivity.
  - intros [Hpos Hne]. unfold SetFade. rewrite Hle.
    destruct (Z.leb_spec duration 0) as [|_]; [lia|].
    destruct (Z.eqb_spec begin end_) as [|_]; [contradiction|].
    repeat split.
Qed.

Lemma SetFade_cases_witness :
  volume (SetFade 70 70 1000 idle_decoder) = of_int 70 /\
  Update 500 (SetFade 70 70 1000 idle_decoder) = SetFade 70 70 1000 idle_decoder /\
  delta_step (SetFade 0 100 1000 idle_decoder)
    = ddiv (dsub (of_int 100) (of_int 0)) (of_int 1000).
Proof.
  assert (Hint : in_int 1000) by (unfold in_int, INT_MIN, INT_MAX; lia).
  destruct (SetFade_cases idle_decoder 70 70 1000 Hint) as [Hnow _].
  destruct (SetFade_cases idle_decoder 0 100 1000 Hint) as [_ Hfade].
  destruct Hnow as (_ & Hvol & _ & Hupd & _); [right; reflexivity|].
  destruct Hfade as (_ & _ & _ & Hstep); [split; [lia | discriminate]|].
  split; [exact Hvol|]. split; [apply Hupd | exact Hstep].
Defined.

(** C6. While a fade runs ([fade_time > 0]) [Update(delta)] takes [delta]
    off the remaining time and moves the volume by [delta * step], then
    clamps it: a stepped volume above 100 becomes 100, one below 0
    becomes 0, and the new volume is in [0, 100] whenever the stepped
    volume is a number, which it is for every [int] [delta] on a decoder
    whose volume is in range and whose step is finite. With no fade
    running ([fade_time <= 0]) [Update] changes nothing. After
    [SetFade(0, 100, 1000)], whatever the decoder was before,
    [Update(500)] gives volume 50, a second [Update(500)] gives volume 100
    and ends the fade, and any further [Update] changes nothing. *)
Theorem Update_steps_and_clamps :
  (forall a delta,
      dgt (fade_time a) d0 = true ->
      let stepped := dadd (volume a) (dmul (of_int delta) (delta_step a)) in
      fade_time (Update delta a) = dsub (fade_time a) (of_int delta) /\
      volume (Update delta a) = clamp_volume stepped /\
      (is_nan stepped = false -> volume_in_range (Update delta a) = true) /\
      (fade_ready a -> in_int delta -> volume_in_range (Update delta a) = true) /\
      (dgt stepped d100 = true -> volume (Update delta a) = d100) /\
      (dlt stepped d0 = true -> volume (Update delta a) = d0)) /\
  (forall a delta, dle (fade_time a) d0 = true -> Update delta a = a) /\
  (forall a,
      let a1 := Update 500 (SetFade 0 100 1000 a) in
      let a2 := Update 500 a1 in
      volume a1 = of_int 50 /\ GetVolume a1 = Some 50 /\
      volume a2 = of_int 100 /\ GetVolume a2 = Some 100 /\
      fade_time a2 = d0 /\
      forall delta, Update delta a2 = a2).
Proof.
  split; [|split].
  - intros a delta Hactive stepped.
    assert (Hrun : dle (fade_time a) d0 = false).
    { unfold dgt, dle, SFltb, SFleb in *.
      rewrite (SFcompare_antisym d0 (fade_time a)).
      destruct (SFcompare d0 (fade_time a)) as [[]|]; try discriminate Hactive.
      reflexivity. }
    unfold Update. rewrite Hrun.
    cbn [fade_time volume delta_step set_fade_time set_volume].
    fold stepped.
    split; [reflexivity|]. split; [reflexivity|]. split; [|split; [|split]].
    + intros Hnum. unfold volume_in_range. cbn [volume].
      apply clamp_volume_in_range, Hnum.
    + intros Hready Hdelta. unfold volume_in_range. cbn [volume].
      apply clamp_volume_in_range, dadd_not_nan.
      * apply in_range_finite, (proj1 Hready).
      * apply dmul_not_nan;
          [apply of_int_finite, in_int_small, Hdelta | exact (proj2 Hready)].
    + intros Hhigh. unfold clamp_volume. rewrite Hhigh. reflexivity.
    + intros Hlow. unfold clamp_volume. rewrite Hlow.
      destruct (dgt stepped d100) eqn:Hhigh; [|reflexivity].
      exfalso. clearbody stepped. unfold dgt, dlt, SFltb in Hlow, Hhigh.
      destruct stepped as [s|s| |s m e]; try destruct s; discriminate.
  - intros a delta. apply Update_idle.
  - intros a a1 a2.
    assert (E1 : a1 = mkAudioDecoder (error_message a) (music_type a) (paused a)
                   (of_int 50) (of_int 100) (of_int 500)
                   (ddiv (of_int 100) (of_int 1000)) (looping a) (loop_count a)).
    { destruct a. vm_compute. reflexivity. }
    assert (E2 : a2 = mkAudioDecoder (error_message a) (music_type a) (paused a)
                   (of_int 100) (of_int 100) d0
                   (ddiv (of_int 100) (of_int 1000)) (looping a) (loop_count a)).
    { unfold a2. rewrite E1. destruct a. vm_compute. reflexivity. }
    rewrite E1, E2. repeat split.
Qed.

Lemma Update_steps_and_clamps_witness :
  volume (Update 500 (SetFade 0 100 1000 idle_decoder)) = of_int 50 /\
  volume_in_range (Update 500 (SetFade 0 100 1000 idle_decoder)) = true /\
  Update 7 idle_decoder = idle_decoder.
Proof.
  destruct Update_steps_and_clamps as (Hactive & Hidle & _).
  destruct (Hactive (SetFade 0 100 1000 idle_decoder) 500) as (_ & Hvol & Hin & _ & _);
    [vm_compute; reflexivity|].
  split; [rewrite Hvol; vm_compute; reflexivity|].
  split; [apply Hin; vm_compute; reflexivity|].
  apply Hidle. vm_compute. reflexivity.
Defined.

(** ** The range of the volume *)

(** C5, as the code has it. [SetVolume] and [SetFade] store the numbers
    they are given, unclamped; only [Update] clamps. So [0 <= volume <=
    100] holds after each operation of every sequence of [SetVolume],
    [SetFade] and [Update] in which the volume of [SetVolume] and the
    [begin] and [end] of [SetFade] are themselves in [0, 100] (durations
    and elapsed times are any [int]s), started on a decoder whose volume
    is in range and whose step is a number. *)
Theorem volume_in_range_kept (ops : list volume_op) (a : AudioDecoder) :
  fade_ready a ->
  Forall op_in_range ops ->
  Forall (fun s => volume_in_range s = true) (run_ops ops a) /\
  (forall v s, volume (SetVolume v s) = of_int v) /\
  (forall b e t s,
      volume (SetFade b e t s) = of_int b \/ volume (SetFade b e t s) = of_int e).
Proof.
  intros Hready Hops. split; [|split].
  - revert a Hready. induction Hops as [|o ops Ho _ IH]; intros a Hready; cbn [run_ops].
    + constructor.
    + pose proof (run_op_ready o a Ho Hready) as Hnext.
      constructor; [exact (proj1 Hnext) | apply IH, Hnext].
  - reflexivity.
  - intros b e t s. unfold SetFade.
    destruct (dle (of_int t) d0); [right; reflexivity|].
    destruct (b =? e); [right | left]; reflexivity.
Qed.

Lemma volume_in_range_kept_witness :
  Forall (fun s => volume_in_range s = true)
    (run_ops [OpSetFade 0 100 1000; OpUpdate 500; OpUpdate 700; OpSetVolume 30;
              OpSetFade 100 0 10; OpUpdate 20]
       idle_decoder).
Proof.
  refine (proj1 (volume_in_range_kept
            [OpSetFade 0 100 1000; OpUpdate 500; OpUpdate 700; OpSetVolume 30;
             OpSetFade 100 0 10; OpUpdate 20] idle_decoder _ _)).
  - split; reflexivity.
  - repeat constructor; unfold in_int, INT_MIN, INT_MAX; cbn; lia.
Defined.

(** C5 as stated fails: [SetVolume(200)] leaves the volume at 200, and
    so does [SetFade(0, 200, 0)]; a fade to 200 passes 150 before the
    first [Update]. *)
Lemma volume_leaves_range :
  volume_in_range idle_decoder = true /\
  volume_in_range (SetVolume 200 idle_decoder) = false /\
  GetVolume (SetVolume 200 idle_decoder) = Some 200 /\
  GetVolume (SetFade 0 200 0 idle_decoder) = Some 200 /\
  GetVolume (SetFade 150 200 1000 idle_decoder) = Some 150 /\
  ~ Forall (fun s => volume_in_range s = true)
      (run_ops [OpSetVolume 200] idle_decoder).
Proof.
  split; [vm_compute; reflexivity|].
  split; [vm_compute; reflexivity|].
  split; [vm_compute; reflexivity|].
  split; [vm_compute; reflexivity|].
  split; [vm_compute; reflexivity|].
  intros Hall. apply Forall_cons_1 in Hall as [Hs _].
  vm_compute in Hs. discriminate Hs.
Qed.

(** * Further properties *)

(** ** One level of Decode *)

Lemma Decode_return_cases {B : Type} (d : Decoder B) m res depth :
  Decode_return d m res depth =
    Done (mkDecoder (base d) (impl d)
            ((if (depth =? 10) && (loop_count (base d) <? 50)
              then [DebugLine recursion_message] else []) ++ calls d), m, res).
Proof.
  unfold Decode_return.
  destruct ((depth =? 10) && (loop_count (base d) <? 50)); [reflexivity|].
  destruct d; reflexivity.
Qed.

(** The ways a call of [Decode] that returns has gone. *)
Lemma Decode_fuel_step {B : Type} `{Backend B} fuel (d d' : Decoder B)
    m m' buffer length depth ret :
  Decode_fuel (S fuel) d m buffer length depth = Done (d', m', ret) ->
  (paused (base d) = true /\ d' = d /\ ret = length /\
   memset m buffer x00 length = Done m') \/
  (paused (base d) = false /\
   exists b m1 res m2,
     FillBuffer (impl d) m buffer length = (b, m1, res) /\
     (if res <? 0 then memset m1 buffer x00 length
      else if res <? length
           then memset m1 (buffer + res) x00 (int_wrap (length - res))
           else Done m1) = Done m2 /\
     ((IsFinished b && looping (base d) && (depth <? 10) = false /\
       Decode_return (mkDecoder (base d) b (FillBufferCall buffer length res :: calls d))
         m2 res depth = Done (d', m', ret)) \/
      (IsFinished b = true /\ looping (base d) = true /\ depth < 10 /\
       exists b2,
         Seek b 0 seek_beg = (b2, true) /\
         let d3 := mkDecoder (set_loop_count (int_wrap (loop_count (base d) + 1)) (base d))
                     b2 (SeekCall 0 seek_beg true
                           :: FillBufferCall buffer length res :: calls d) in
         ((int_wrap (length - res) >? 0) = false /\
          Decode_return d3 m2 res depth = Done (d', m', ret)) \/
         (0 < int_wrap (length - res) /\
          exists res2,
            Decode_fuel fuel d3 m2 (buffer + res) (int_wrap (length - res)) (depth + 1)
              = Done (d', m', res2) /\
            ret = if res2 <=? 0 then res else int_wrap (res + res2))))).
Proof.
  intros Hrun. cbn [Decode_fuel] in Hrun.
  destruct (paused (base d)) eqn:Hp.
  { left. destruct (memset m buffer x00 length) as [m0| | | |] eqn:Hset;
      try discriminate Hrun.
    cbn in Hrun. injection Hrun as <- <- <-. repeat split. }
  right. split; [reflexivity|].
  destruct (FillBuffer (impl d) m buffer length) as [[b m1] res] eqn:Hfill.
  exists b, m1, res.
  match type of Hrun with
  | mbind _ ?pad = _ => destruct pad as [m2| | | |] eqn:Hpad; try discriminate Hrun
  end.
  exists m2. split; [reflexivity|]. split; [reflexivity|].
  cbn [mbind outcome_bind] in Hrun. unfold observe, with_base in Hrun.
  cbn [base impl calls] in Hrun.
  destruct (IsFinished b && looping (base d) && (depth <? 10)) eqn:Hc.
  2:{ left. split; [reflexivity | exact Hrun]. }
  right. apply andb_prop in Hc as [Hc Hd]. apply andb_prop in Hc as [Hfin Hloop].
  apply Z.ltb_lt in Hd. repeat (split; [assumption|]).
  unfold Rewind in Hrun. cbn [base impl calls] in Hrun.
  destruct (Seek b 0 seek_beg) as [b2 [|]]; [|discriminate Hrun].
  exists b2. split; [reflexivity|].
  unfold observe in Hrun. cbn [mbind outcome_bind base impl calls] in Hrun.
  destruct (int_wrap (length - res) >? 0) eqn:Hrem.
  - right. apply Z.gtb_lt in Hrem. split; [exact Hrem|].
    match type of Hrun with
    | mbind _ ?rec = _ => destruct rec as [[[d4 m4] res2]| | | |] eqn:Hrec;
                           try discriminate Hrun
    end.
    cbn [mbind outcome_bind] in Hrun. exists res2.
    destruct (res2 <=? 0); injection Hrun as <- <- <-; split; reflexivity.
  - left. split; [reflexivity | exact Hrun].
Qed.

(** ** What Decode leaves alone *)

Lemma set_loop_count_same a : set_loop_count (loop_count a) a = a.
Proof. destruct a; reflexivity. Qed.

Lemma set_loop_count_twice v w a :
  set_loop_count v (set_loop_count w a) = set_loop_count v a.
Proof. reflexivity. Qed.

Lemma Decode_fuel_settings {B : Type} `{Backend B} (fuel : nat) :
  forall (d d' : Decoder B) m m' buffer length depth ret,
    Decode_fuel fuel d m buffer length depth = Done (d', m', ret) ->
    base d' = set_loop_count (loop_count (base d')) (base d) /\
    exists new,
      calls d' = new ++ calls d /\
      (looping (base d) = false ->
       base d' = base d /\ seek_count new = 0 /\
       fill_count new = if paused (base d) then 0 else 1).
Proof.
  induction fuel as [|fuel IH]; intros d d' m m' buffer length depth ret Hrun;
    [discriminate Hrun|].
  apply Decode_fuel_step in Hrun
    as [(Hp & -> & _ & _) | (Hp & b & m1 & res & m2 & Hfill & Hpad & Hcase)].
  { rewrite set_loop_count_same. split; [reflexivity|]. exists [].
    split; [reflexivity|]. intros _. rewrite Hp. repeat split. }
  rewrite Hp.
  destruct Hcase as [(Hc & Hret) | (Hfin & Hloop & Hd & b2 & Hseek & Hcase)].
  - rewrite Decode_return_cases in Hret. injection Hret as <- _ _.
    cbn [base impl calls]. rewrite set_loop_count_same. split; [reflexivity|].
    eexists (_ ++ [_]). split; [rewrite <- app_assoc; reflexivity|].
    intros _. split; [reflexivity|].
    rewrite seek_count_app, fill_count_app.
    destruct ((depth =? 10) && _); split; reflexivity.
  - cbv zeta in Hcase. destruct Hcase as [(_ & Hret) | (_ & res2 & Hrec & _)].
    + rewrite Decode_return_cases in Hret. injection Hret as <- _ _.
      cbn [base impl calls]. split; [reflexivity|].
      eexists (_ ++ [_; _]). split; [rewrite <- app_assoc; reflexivity|].
      intros Hoff. congruence.
    + apply IH in Hrec as (Hbase & new & Hcalls & _). cbn [base calls] in Hbase, Hcalls.
      split; [rewrite Hbase at 1; apply set_loop_count_twice|].
      exists (new ++ [SeekCall 0 seek_beg true; FillBufferCall buffer length res]).
      split; [rewrite Hcalls, <- app_assoc; reflexivity|].
      intros Hoff. congruence.
Qed.

(** X1. [Decode] changes nothing of the base object but the loop count:
    pause flag, looping flag, volume, fade and texts are those from
    before, and the calls on record are only added to. With looping off
    the loop count is the same too, the backend is never sought, and
    [FillBuffer] is called once (not at all while paused). *)
Theorem Decode_keeps_settings {B : Type} `{Backend B}
    (d d' : Decoder B) (m m' : mem) (buffer length ret : Z) :
  Decode d m buffer length = Done (d', m', ret) ->
  base d' = set_loop_count (loop_count (base d')) (base d) /\
  paused (base d') = paused (base d) /\
  looping (base d') = looping (base d) /\
  volume (base d') = volume (base d) /\
  fade_time (base d') = fade_time (base d) /\
  exists new,
    calls d' = new ++ calls d /\
    (looping (base d) = false ->
     base d' = base d /\ seek_count new = 0 /\
     fill_count new = if paused (base d) then 0 else 1).
Proof.
  intros Hrun. apply Decode_fuel_settings in Hrun as (Hbase & Hnew).
  split; [exact Hbase|].
  repeat (split; [rewrite Hbase; reflexivity|]).
  exact Hnew.
Qed.

Lemma Decode_keeps_settings_witness :
  exists d' m' ret,
    Decode (short_looping 3) ∅ 100 8 = Done (d', m', ret) /\
    looping (base d') = true /\ paused (base d') = false.
Proof.
  destruct (Decode (short_looping 3) ∅ 100 8) as [[[d' m'] ret]| | | |] eqn:Hrun;
    try (vm_compute in Hrun; discriminate Hrun).
  exists d', m', ret. split; [reflexivity|].
  destruct (Decode_keeps_settings _ _ _ _ _ _ _ Hrun) as (_ & Hp & Hl & _).
  split; [rewrite Hl | rewrite Hp]; reflexivity.
Defined.

(** ** The diagnostic at the recursion cap *)

Lemma debug_count_app l1 l2 : debug_count (l1 ++ l2) = debug_count l1 + debug_count l2.
Proof. unfold debug_count. rewrite filter_app, length_app. lia. Qed.

Lemma Decode_fuel_debug {B : Type} `{Backend B} (fuel : nat) :
  forall (d d' : Decoder B) m m' buffer length depth ret,
    depth <= 10 ->
    in_int (loop_count (base d)) ->
    Decode_fuel fuel d m buffer length depth = Done (d', m', ret) ->
    exists new,
      calls d' = new ++ calls d /\
      loop_count (base d') = int_wrap (loop_count (base d) + seek_count new) /\
      0 <= seek_count new <= 10 - depth /\
      0 <= debug_count new <= 1 /\
      (debug_count new = 1 ->
       seek_count new = 10 - depth /\ loop_count (base d') < 50).
Proof.
  induction fuel as [|fuel IH]; intros d d' m m' buffer length depth ret Hd Hlc Hrun;
    [discriminate Hrun|].
  apply Decode_fuel_step in Hrun
    as [(Hp & -> & _ & _) | (Hp & b & m1 & res & m2 & Hfill & Hpad & Hcase)].
  { exists []. change (seek_count []) with 0. change (debug_count []) with 0.
    rewrite Z.add_0_r, int_wrap_id by exact Hlc. repeat split; lia. }
  destruct Hcase as [(Hc & Hret) | (Hfin & Hloop & Hlt & b2 & Hseek & Hcase)].
  - rewrite Decode_return_cases in Hret. injection Hret as <- _ _.
    cbn [base impl calls loop_count].
    eexists (_ ++ [_]). split; [rewrite <- app_assoc; reflexivity|].
    rewrite seek_count_app, debug_count_app.
    destruct ((depth =? 10) && (loop_count (base d) <? 50)) eqn:Hdbg.
    + apply andb_prop in Hdbg as [H10 H50].
      apply Z.eqb_eq in H10. apply Z.ltb_lt in H50.
      change (seek_count [DebugLine recursion_message]) with 0.
      change (debug_count [DebugLine recursion_message]) with 1.
      change (seek_count [FillBufferCall buffer length res]) with 0.
      change (debug_count [FillBufferCall buffer length res]) with 0.
      rewrite Z.add_0_r, int_wrap_id by exact Hlc. repeat split; lia.
    + change (seek_count []) with 0. change (debug_count []) with 0.
      change (seek_count [FillBufferCall buffer length res]) with 0.
      change (debug_count [FillBufferCall buffer length res]) with 0.
      rewrite Z.add_0_r, int_wrap_id by exact Hlc. repeat split; lia.
  - cbv zeta in Hcase. destruct Hcase as [(_ & Hret) | (_ & res2 & Hrec & _)].
    + rewrite Decode_return_cases in Hret. injection Hret as <- _ _.
      cbn [base impl calls loop_count set_loop_count].
      destruct (Z.eqb_spec depth 10) as [|_]; [lia|]. cbn [andb].
      exists [SeekCall 0 seek_beg true; FillBufferCall buffer length res].
      split; [reflexivity|].
      change (seek_count [SeekCall 0 seek_beg true; FillBufferCall buffer length res]) with 1.
      change (debug_count [SeekCall 0 seek_beg true; FillBufferCall buffer length res]) with 0.
      repeat split; lia.
    + apply IH in Hrec as (new & Hcalls & Hcount & Hseeks & Hdbg & Hone);
        [|lia|cbn; apply int_wrap_range].
      cbn [base calls loop_count set_loop_count] in Hcalls, Hcount.
      exists (new ++ [SeekCall 0 seek_beg true; FillBufferCall buffer length res]).
      split; [rewrite Hcalls, <- app_assoc; reflexivity|].
      rewrite seek_count_app, debug_count_app.
      change (seek_count [SeekCall 0 seek_beg true; FillBufferCall buffer length res]) with 1.
      change (debug_count [SeekCall 0 seek_beg true; FillBufferCall buffer length res]) with 0.
      split; [rewrite Hcount, int_wrap_add_l; f_equal; lia|].
      split; [lia|]. split; [lia|].
      intros Hd1. destruct Hone as [Hs Hl]; [lia|]. split; [lia | exact Hl].
Qed.

(** X2. A top-level [Decode] writes the "Recursion depth exceeded" line
    at most once, and only after it has rewound ten times and with a loop
    count still below 50. Ten rewinds add ten to the loop count, so a
    decoder whose loop count has reached 40 does not write the line. *)
Theorem Decode_diagnostic_rate {B : Type} `{Backend B}
    (d d' : Decoder B) (m m' : mem) (buffer length ret : Z) :
  in_int (loop_count (base d)) ->
  Decode d m buffer length = Done (d', m', ret) ->
  exists new,
    calls d' = new ++ calls d /\
    0 <= debug_count new <= 1 /\
    (debug_count new = 1 -> seek_count new = 10 /\ loop_count (base d') < 50) /\
    (40 <= loop_count (base d) <= INT_MAX - 10 -> debug_count new = 0).
Proof.
  intros Hlc Hrun.
  apply Decode_fuel_debug in Hrun as (new & Hcalls & Hcount & Hseeks & Hdbg & Hone);
    [|lia|exact Hlc].
  exists new. split; [exact Hcalls|]. split; [exact Hdbg|].
  split; [intros H1; destruct (Hone H1); split; [lia | assumption]|].
  intros Hmany.
  destruct (Z.eq_dec (debug_count new) 1) as [H1|]; [|lia].
  destruct (Hone H1) as [Hs Hl]. rewrite Hcount, int_wrap_id in Hl; [lia|].
  unfold in_int in *. lia.
Qed.

Lemma Decode_diagnostic_rate_witness :
  exists d' m' ret new,
    Decode (short_looping 0) ∅ 100 8 = Done (d', m', ret) /\
    calls d' = new ++ [] /\ debug_count new = 1 /\ seek_count new = 10.
Proof.
  destruct (Decode (short_looping 0) ∅ 100 8) as [[[d' m'] ret]| | | |] eqn:Hrun;
    try (vm_compute in Hrun; discriminate Hrun).
  destruct (Decode_diagnostic_rate (short_looping 0) d' ∅ m' 100 8 ret)
    as (new & Hcalls & _ & Hone & _).
  - unfold in_int, INT_MIN, INT_MAX. cbn. lia.
  - exact Hrun.
  - exists d', m', ret, new. split; [reflexivity|]. split; [exact Hcalls|].
    assert (Hd : debug_count new = 1).
    { cbn [calls short_looping] in Hcalls. rewrite app_nil_r in Hcalls. subst new.
      vm_compute in Hrun. injection Hrun as <- _ _. reflexivity. }
    split; [exact Hd | apply Hone, Hd].
Defined.

(** ** The value Decode returns *)

Lemma int_wrap_positive z : 0 <= z < 2 ^ 32 -> 0 < int_wrap z -> int_wrap z = z.
Proof.
  intros Hz Hpos. destruct (Z_le_gt_dec z INT_MAX) as [Hle|Hgt].
  { apply int_wrap_id. unfold in_int, INT_MIN, INT_MAX in *. lia. }
  exfalso. unfold int_wrap, INT_MAX in *.
  replace (z + 2 ^ 31) with ((z - 2 ^ 31) + 1 * 2 ^ 32) in Hpos by lia.
  rewrite Z_mod_plus_full, Z.mod_small in Hpos; lia.
Qed.

Lemma Decode_fuel_bounded {B : Type} `{Backend B} (fuel : nat) :
  counts_within B ->
  forall (d d' : Decoder B) m m' buffer length depth ret,
    0 <= length <= INT_MAX ->
    Decode_fuel fuel d m buffer length depth = Done (d', m', ret) ->
    INT_MIN <= ret <= length /\
    (forall b m1 res, paused (base d) = false ->
                      FillBuffer (impl d) m buffer length = (b, m1, res) -> res <= ret).
Proof.
  intros Hcount.
  induction fuel as [|fuel IH]; intros d d' m m' buffer length depth ret Hlen Hrun;
    [discriminate Hrun|].
  apply Decode_fuel_step in Hrun
    as [(Hp & _ & -> & _) | (Hp & b & m1 & res & m2 & Hfill & Hpad & Hcase)].
  { split; [unfold INT_MIN; lia|]. intros ? ? ? Habs. congruence. }
  pose proof (Hcount (impl d) m buffer length (proj1 Hlen)) as Hres.
  rewrite Hfill in Hres. cbn [snd] in Hres.
  assert (Hgoal : INT_MIN <= ret <= length /\ res <= ret).
  { destruct Hcase as [(_ & Hret) | (_ & _ & _ & b2 & _ & Hcase)].
    - rewrite Decode_return_cases in Hret. injection Hret as _ _ <-. lia.
    - cbv zeta in Hcase. destruct Hcase as [(_ & Hret) | (Hrem & res2 & Hrec & ->)].
      + rewrite Decode_return_cases in Hret. injection Hret as _ _ <-. lia.
      + assert (Hexact : int_wrap (length - res) = length - res).
        { apply int_wrap_positive; [|exact Hrem].
          unfold INT_MIN, INT_MAX in *. lia. }
        pose proof (int_wrap_range (length - res)) as Hrange.
        rewrite Hexact in Hrec, Hrem, Hrange. unfold in_int in Hrange.
        apply IH in Hrec as [Hres2 _]; [|lia].
        destruct (Z.leb_spec res2 0); [lia|].
        rewrite int_wrap_id by (unfold in_int, INT_MIN, INT_MAX in *; lia). lia. }
  split; [exact (proj1 Hgoal)|].
  intros b' m1' res' _ Hfill'. rewrite Hfill in Hfill'.
  injection Hfill' as _ _ <-. exact (proj2 Hgoal).
Qed.

(** X3. Over a backend whose [FillBuffer] never reports more bytes than
    it was asked for, [Decode] never reports more than [length], however
    many times the loop re-enters: the sum of the rounds stays within the
    destination and within [int]. It also never reports less than the
    first [FillBuffer] did: rounds with nothing to add are dropped, not
    subtracted. *)
Theorem Decode_return_bounded {B : Type} `{Backend B}
    (d d' : Decoder B) (m m' : mem) (buffer length ret : Z) :
  counts_within B ->
  0 <= length <= INT_MAX ->
  Decode d m buffer length = Done (d', m', ret) ->
  INT_MIN <= ret <= length /\
  (forall b m1 res, paused (base d) = false ->
                    FillBuffer (impl d) m buffer length = (b, m1, res) -> res <= ret).
Proof.
  intros Hcount Hlen Hrun.
  exact (Decode_fuel_bounded 11 Hcount d d' m m' buffer length 0 ret Hlen Hrun).
Qed.

Lemma Decode_return_bounded_witness :
  exists d' m' ret,
    Decode (short_looping 3) ∅ 100 8 = Done (d', m', ret) /\ ret <= 8.
Proof.
  destruct (Decode (short_looping 3) ∅ 100 8) as [[[d' m'] ret]| | | |] eqn:Hrun;
    try (vm_compute in Hrun; discriminate Hrun).
  exists d', m', ret. split; [reflexivity|].
  destruct (Decode_return_bounded (short_looping 3) d' ∅ m' 100 8 ret) as [Hret _].
  - exact ShortStream_counts_within.
  - unfold INT_MAX. lia.
  - exact Hrun.
  - lia.
Defined.

(** ** DecodeAll to the end of a stream *)

Lemma Decode_once {B : Type} `{Backend B} (d : Decoder B) m buffer length b m1 res :
  paused (base d) = false ->
  FillBuffer (impl d) m buffer length = (b, m1, res) ->
  IsFinished b && looping (base d) = false ->
  0 <= length <= INT_MAX ->
  exists m',
    Decode d m buffer length =
      Done (mkDecoder (base d) b (FillBufferCall buffer length res :: calls d), m', res).
Proof.
  intros Hp Hfill Hloop Hlen.
  unfold Decode, Decode3. cbn [Decode_fuel Z.sub Z.opp Z.add Z.to_nat Pos.to_nat].
  rewrite Hp, Hfill. unfold observe. cbn [base impl calls].
  rewrite Hloop. cbn [andb].
  assert (Hpad : exists m2,
    (if res <? 0 then memset m1 buffer x00 length
     else if res <? length
          then memset m1 (buffer + res) x00 (int_wrap (length - res))
          else Done m1) = Done m2).
  { destruct (res <? 0) eqn:E1; [rewrite memset_done by lia; eauto|].
    destruct (res <? length) eqn:E2; [|eauto].
    apply Z.ltb_ge in E1. apply Z.ltb_lt in E2.
    rewrite int_wrap_id by (unfold in_int, INT_MIN, INT_MAX in *; lia).
    rewrite memset_done by lia. eauto. }
  destruct Hpad as [m2 ->]. cbn [mbind outcome_bind].
  rewrite Decode_return_cases. cbn [base impl calls Z.eqb andb app].
  exists m2. reflexivity.
Qed.

Lemma load_bytes_length m p n : List.length (load_bytes m p n) = n.
Proof. revert p. induction n as [|n IH]; intros p; cbn; [reflexivity | rewrite IH; reflexivity]. Qed.

Lemma vector_resize_done n (buffer : list byte) :
  0 <= n <= vector_max_size ->
  vector_resize n buffer = Done (resize (Z.to_nat n) x00 buffer).
Proof.
  intros Hn. unfold vector_resize, size_wrap.
  rewrite Z.mod_small by (unfold vector_max_size in Hn; lia).
  destruct (Z.gtb_spec n vector_max_size); [lia | reflexivity].
Qed.

Lemma chunk_step r : 8192 <= r ->
  (r - 8192) / 8192 = r / 8192 - 1 /\ (r - 8192) mod 8192 = r mod 8192.
Proof.
  intros Hr. replace r with ((r - 8192) + 1 * 8192) at 2 4 by lia.
  rewrite Z.div_add, Z_mod_plus_full by lia. lia.
Qed.

Lemma DecodeAll_loop_plays_out {B : Type} `{Backend B} (remaining : B -> Z) :
  plays_out B remaining ->
  forall (fuel : nat) (d : Decoder B) (buffer : list byte) (c : Z),
    paused (base d) = false ->
    looping (base d) = false ->
    0 <= c ->
    Z.of_nat (List.length buffer) = 8192 * (c + 1) ->
    8192 * (c + 2) + remaining (impl d) < 2 ^ 63 ->
    remaining (impl d) / 8192 < Z.of_nat fuel ->
    exists d' buffer',
      DecodeAll_loop fuel d buffer = Done (d', buffer') /\
      Z.of_nat (List.length buffer') =
        8192 * c + (if remaining (impl d) mod 8192 =? 0
                    then remaining (impl d) + 8192 else remaining (impl d)) /\
      remaining (impl d') = 0 /\ base d' = base d.
Proof.
  intros (Hnn & Hfin & Hfill).
  induction fuel as [|fuel IH]; intros d buffer c Hp Hl Hc Hsize Hbig Hfuel.
  { pose proof (Z.div_pos (remaining (impl d)) 8192 (Hnn _)). lia. }
  pose proof (Hnn (impl d)) as Hr.
  cbn [DecodeAll_loop]. rewrite Hfin.
  destruct (Z.eqb_spec (remaining (impl d)) 0) as [Hzero|Hmore]; cbn [negb].
  { exists d, buffer. rewrite Hzero. change (0 mod 8192 =? 0) with true. cbv iota.
    split; [reflexivity|]. split; [lia|]. split; reflexivity. }
  unfold Decode_chunk, buffer_size.
  set (size := Z.of_nat (List.length buffer)) in *.
  set (m0 := store_bytes ∅ 0 buffer).
  destruct (FillBuffer (impl d) m0 (0 + size - 8192) 8192) as [[b m1] res] eqn:Hfb.
  destruct (Hfill (impl d) m0 (0 + size - 8192) 8192) as [Hres Hrem]; [lia|].
  rewrite Hfb in Hres, Hrem. cbn [fst snd] in Hres, Hrem.
  destruct (Decode_once d m0 (0 + size - 8192) 8192 b m1 res Hp Hfb) as [m' ->].
  { rewrite Hl. apply andb_false_r. }
  { unfold INT_MAX. lia. }
  cbn [mbind outcome_bind]. rewrite load_bytes_length. fold size.
  destruct (Z.ltb_spec res 8192) as [Hshort|Hfull].
  - assert (Hres' : res = remaining (impl d)) by lia.
    rewrite int_wrap_id by (unfold in_int, INT_MIN, INT_MAX; lia).
    rewrite vector_resize_done by (unfold vector_max_size; lia).
    cbn [mbind outcome_bind]. eexists _, _. split; [reflexivity|].
    rewrite length_resize. cbn [impl base].
    rewrite Z.mod_small by lia.
    destruct (Z.eqb_spec (remaining (impl d)) 0); [lia|].
    repeat split; lia.
  - assert (Hmin : Z.min (remaining (impl d)) 8192 = 8192) by lia.
    rewrite Hmin in Hres, Hrem. subst res.
    rewrite vector_resize_done by (unfold vector_max_size; lia).
    cbn [mbind outcome_bind].
    set (d1 := mkDecoder (base d) b (FillBufferCall (0 + size - 8192) 8192 8192 :: calls d)).
    set (buffer1 := resize (Z.to_nat (size + 8192)) x00
                      (load_bytes m' 0 (List.length buffer))).
    assert (Hlarge : 8192 <= remaining (impl d)) by lia.
    destruct (chunk_step _ Hlarge) as [Hdiv Hmod].
    assert (Hlen1 : Z.of_nat (List.length buffer1) = 8192 * (c + 1 + 1)).
    { unfold buffer1. rewrite length_resize. lia. }
    assert (Hbig1 : 8192 * (c + 1 + 2) + remaining (impl d1) < 2 ^ 63).
    { cbn [impl d1]. lia. }
    assert (Hfuel1 : remaining (impl d1) / 8192 < Z.of_nat fuel).
    { cbn [impl d1]. rewrite Hrem. lia. }
    destruct (IH d1 buffer1 (c + 1) Hp Hl ltac:(lia) Hlen1 Hbig1 Hfuel1)
      as (d' & buffer' & Hrun & Hlen & Hend & Hbase).
    exists d', buffer'. split; [exact Hrun|].
    cbn [impl base d1] in Hlen, Hbase. rewrite Hrem, Hmod in Hlen.
    split; [|split; assumption].
    rewrite Hlen. destruct (remaining (impl d) mod 8192 =? 0); lia.
Qed.

(** X4. [DecodeAll] on a stream with [n] bytes left to play (not paused,
    not looping) returns, and its buffer holds [n] bytes when [n] is not
    a multiple of the chunk size 8192. When [n] is a multiple of 8192,
    zero included, the last read fills its chunk, a further chunk is
    appended before the loop sees that the stream is finished, and the
    buffer holds [n + 8192] bytes. The stream is played to its end. *)
Theorem DecodeAll_length {B : Type} `{Backend B} (remaining : B -> Z)
    (d : Decoder B) (fuel : nat) :
  plays_out B remaining ->
  paused (base d) = false ->
  looping (base d) = false ->
  remaining (impl d) < 2 ^ 62 ->
  remaining (impl d) / 8192 < Z.of_nat fuel ->
  exists d' buffer,
    DecodeAll fuel d = Done (d', buffer) /\
    Z.of_nat (List.length buffer) =
      (if remaining (impl d) mod 8192 =? 0
       then remaining (impl d) + 8192 else remaining (impl d)) /\
    remaining (impl d') = 0.
Proof.
  intros Hplay Hp Hl Hbig Hfuel.
  unfold DecodeAll.
  rewrite vector_resize_done by (unfold buffer_size, vector_max_size; lia).
  cbn [mbind outcome_bind].
  destruct (DecodeAll_loop_plays_out remaining Hplay fuel d
              (resize (Z.to_nat buffer_size) x00 []) 0)
    as (d' & buffer & Hrun & Hlen & Hend & _); try assumption; try lia.
  { rewrite length_resize. reflexivity. }
  exists d', buffer. split; [exact Hrun|]. split; [|exact Hend].
  rewrite Hlen. lia.
Qed.

Lemma FiniteStream_plays_out : plays_out FiniteStream (fun b => Z.max 0 (left b)).
Proof.
  split; [intros b; lia|]. split.
  - intros b. cbn. destruct (Z.leb_spec (left b) 0), (Z.eqb_spec (Z.max 0 (left b)) 0);
      try reflexivity; lia.
  - intros b m buffer length Hlen. cbn. lia.
Qed.

Lemma DecodeAll_length_witness :
  (exists d' buffer,
      DecodeAll 3 (finite_decoder 10000) = Done (d', buffer) /\
      Z.of_nat (List.length buffer) = 10000) /\
  (exists d' buffer,
      DecodeAll 3 (finite_decoder 16384) = Done (d', buffer) /\
      Z.of_nat (List.length buffer) = 16384 + 8192).
Proof.
  split.
  - destruct (DecodeAll_length (fun b => Z.max 0 (left b)) (finite_decoder 10000) 3)
      as (d' & buffer & Hrun & Hlen & _);
      [exact FiniteStream_plays_out | reflexivity | reflexivity
      | cbn; lia | vm_compute; reflexivity |].
    exists d', buffer. split; [exact Hrun | exact Hlen].
  - destruct (DecodeAll_length (fun b => Z.max 0 (left b)) (finite_decoder 16384) 3)
      as (d' & buffer & Hrun & Hlen & _);
      [exact FiniteStream_plays_out | reflexivity | reflexivity
      | cbn; lia | vm_compute; reflexivity |].
    exists d', buffer. split; [exact Hrun | exact Hlen].
Defined.

(** X5. [DecodeAll] on a decoder that is not finished and whose first
    read fails ([FillBuffer] negative, no loop re-entry) does not return a
    buffer: the new size [size - (8192 - read)] is computed in [size_t],
    falls below zero for the first chunk and wraps to a size that
    [resize] rejects with [std::length_error]. *)
Theorem DecodeAll_failed_read_throws {B : Type} `{Backend B}
    (d : Decoder B) (fuel : nat) :
  paused (base d) = false ->
  IsFinished (impl d) = false ->
  (forall m buffer length,
      let '(b, _, res) := FillBuffer (impl d) m buffer length in
      - 2 ^ 30 <= res < 0 /\ IsFinished b && looping (base d) = false) ->
  DecodeAll (S fuel) d = Thrown "length_error".
Proof.
  intros Hp Hnot Hfails. unfold DecodeAll.
  rewrite vector_resize_done by (unfold buffer_size, vector_max_size; lia).
  cbn [mbind outcome_bind DecodeAll_loop]. rewrite Hnot. cbn [negb].
  unfold Decode_chunk. rewrite length_resize.
  set (m0 := store_bytes ∅ 0 _). set (p := 0 + _ - buffer_size).
  specialize (Hfails m0 p buffer_size).
  destruct (FillBuffer (impl d) m0 p buffer_size) as [[b m1] res] eqn:Hfb.
  destruct Hfails as [Hres Hloop].
  destruct (Decode_once d m0 p buffer_size b m1 res Hp Hfb Hloop) as [m' ->].
  { unfold buffer_size, INT_MAX. lia. }
  cbn [mbind outcome_bind]. rewrite load_bytes_length.
  destruct (Z.ltb_spec res buffer_size) as [_|Habs]; [|unfold buffer_size in Habs; lia].
  unfold vector_resize, size_wrap, buffer_size.
  rewrite int_wrap_id by (unfold in_int, INT_MIN, INT_MAX; lia).
  rewrite Z2Nat.id by lia.
  replace (8192 - (8192 - res)) with (res + 1 * 2 ^ 64 - 2 ^ 64) by lia.
  replace (res + 1 * 2 ^ 64 - 2 ^ 64) with ((res + 2 ^ 64) + (-1) * 2 ^ 64) by lia.
  rewrite Z_mod_plus_full, Z.mod_small by lia.
  destruct (Z.gtb_spec (res + 2 ^ 64) vector_max_size) as [|Hle];
    [reflexivity | unfold vector_max_size in Hle; lia].
Qed.

Lemma DecodeAll_failed_read_throws_witness :
  DecodeAll 1 stalled_decoder = Thrown "length_error".
Proof.
  apply (DecodeAll_failed_read_throws stalled_decoder 0);
    [reflexivity | reflexivity |].
  intros m buffer length. cbn. split; [lia | reflexivity].
Defined.

(** ** Reading and probing a stream *)

Lemma stream_good_flags s :
  stream_good s = true -> eofbit s = false /\ failbit s = false /\ badbit s = false.
Proof.
  unfold stream_good. intros Hg. apply negb_true_iff in Hg.
  apply orb_false_elim in Hg as [Hg Hb]. apply orb_false_elim in Hg as [He Hf].
  repeat split; assumption.
Qed.

Lemma stream_read_full s n :
  stream_good s = true ->
  (n <= List.length (ahead s))%nat ->
  stream_read s n =
    (mkInputStream (contents s) (position s + Z.of_nat n) false false false
       (stream_name s) (seek_past_end s), take n (ahead s)).
Proof.
  intros Hgood Hn. destruct (stream_good_flags s Hgood) as (He & Hf & Hb).
  unfold stream_read, ahead in *. rewrite Hgood, length_take, Nat.min_l by exact Hn.
  rewrite Nat.ltb_irrefl, He, Hf, Hb. reflexivity.
Qed.

Lemma seekg_at_start s k :
  0 <= k <= Z.of_nat (List.length (contents s)) ->
  seekg k (at_start s) =
    mkInputStream (contents s) k false false false (stream_name s) (seek_past_end s).
Proof.
  intros Hk. unfold seekg, at_start, stream_fail. cbn.
  destruct (Z.leb_spec 0 k); [|lia].
  destruct (Z.leb_spec k (Z.of_nat (List.length (contents s)))); [|lia].
  reflexivity.
Qed.

(** A probe that finds its bytes: [seekg(k)], a read of [n] bytes, and
    [seekg(0)] bring a stream that was at its start back there. *)
Lemma probe_restores s k n s2 got :
  0 <= k ->
  k + Z.of_nat n <= Z.of_nat (List.length (contents s)) ->
  stream_read (seekg k (at_start s)) n = (s2, got) ->
  got = take n (drop (Z.to_nat k) (contents s)) /\
  List.length got = n /\
  seekg 0 s2 = at_start s.
Proof.
  intros Hk Hlen Hread.
  rewrite seekg_at_start in Hread by lia.
  rewrite stream_read_full in Hread.
  - injection Hread as <- <-. unfold ahead. cbn [position contents].
    split; [reflexivity|]. split.
    + rewrite length_take, length_drop. lia.
    + unfold seekg, at_start, stream_fail. cbn.
      destruct (Z.leb_spec 0 (Z.of_nat (List.length (contents s)))); [reflexivity | lia].
  - reflexivity.
  - unfold ahead. cbn [position contents]. rewrite length_drop. lia.
Qed.

Lemma read_into_full (buf got : list byte) :
  List.length got = List.length buf -> read_into buf got = got.
Proof.
  intros Hlen. unfold read_into. rewrite drop_ge by lia. apply app_nil_r.
Qed.

(** [Create] once the magic is read: the stream is back at its start and
    the classification goes by the four bytes. *)
Lemma Create_after_magic cfg env works s resample :
  stream_good s = true ->
  (4 <= List.length (ahead s))%nat ->
  Create cfg env works s resample =
    if strncmp (take 4 (ahead s)) (lit "MThd") 4 =? 0 then
      let '(stream, midi) := MidiDecoder_Create env (at_start s) resample in
      if midi then (stream, works, Some (Constructed MidiDecoder))
      else Create_ogg cfg env works stream resample (take 4 (ahead s))
    else Create_ogg cfg env works (at_start s) resample (take 4 (ahead s)).
Proof.
  intros Hgood Hlen. unfold Create, ReadIntoObj.
  cbn [List.length]. rewrite stream_read_full by assumption.
  rewrite read_into_full by (rewrite length_take; cbn [List.length]; lia).
  unfold stream_fail. cbn [failbit badbit orb negb].
  assert (Hseek : seekg 0 (mkInputStream (contents s) (position s + Z.of_nat 4)
                             false false false (stream_name s) (seek_past_end s))
                  = at_start s).
  { unfold seekg, at_start, stream_fail. cbn.
    destruct (Z.leb_spec 0 (Z.of_nat (List.length (contents s)))); [reflexivity | lia]. }
  rewrite Hseek. reflexivity.
Qed.

(** X6. A stream that is not in a good state, or has fewer than four
    bytes left at its read position, is not classified: [Create] returns
    [nullptr] under every configuration, asks no collaborator, leaves the
    flag of mpg123 as it was, and the stream is failed. *)
Theorem Create_needs_four_bytes cfg env works s resample :
  stream_good s = false \/ (List.length (ahead s) < 4)%nat ->
  returned_decoder (Create cfg env works s resample) = None /\
  returned_flag (Create cfg env works s resample) = works /\
  stream_fail (returned_stream (Create cfg env works s resample)) = true.
Proof.
  intros Hshort. unfold Create, ReadIntoObj, stream_read. cbn [List.length].
  fold (ahead s).
  destruct (stream_good s) eqn:Hgood.
  - destruct Hshort as [Habs|Hlen]; [discriminate Habs|].
    rewrite length_take, Nat.min_r by lia.
    destruct (Nat.ltb_spec (List.length (ahead s)) 4) as [_|Hge]; [|lia].
    repeat split.
  - repeat split.
Qed.

Lemma Create_needs_four_bytes_witness :
  returned_decoder (Create full_build all_claims true (stream_of (lit "MTh")) true) = None.
Proof.
  apply (Create_needs_four_bytes full_build all_claims true (stream_of (lit "MTh")) true).
  right. vm_compute. lia.
Defined.

(** ** Routing by the magic *)

Lemma take_4_length (l w : list byte) :
  take 4 l = w -> List.length w = 4%nat -> (4 <= List.length l)%nat.
Proof. intros <- Hlen. rewrite length_take in Hlen. lia. Qed.

(** X7. An AIFF ("FORM") or FLAC ("fLaC") stream goes to libsndfile,
    wrapped in the resampler when that is compiled in and asked for, and
    to nothing else: in a build without libsndfile [Create] returns
    [nullptr] without trying the tracker or MP3 decoders. The stream is
    back at offset 0 with no flag set and the mpg123 flag is untouched. *)
Theorem Create_generic_formats cfg env works s resample :
  stream_good s = true ->
  take 4 (ahead s) = lit "FORM" \/ take 4 (ahead s) = lit "fLaC" ->
  Create cfg env works s resample =
    (at_start s, works,
     if HAVE_LIBSNDFILE cfg
     then Some (add_resampler cfg resample (Constructed LibsndfileDecoder))
     else None).
Proof.
  intros Hgood Hmagic.
  rewrite Create_after_magic;
    [|exact Hgood | destruct Hmagic as [E|E]; exact (take_4_length _ _ E eq_refl)].
  unfold Create_ogg, Create_fastwav, Create_common.
  destruct Hmagic as [-> | ->].
  - change (strncmp (lit "FORM") (lit "MThd") 4 =? 0) with false.
    change (strncmp (lit "FORM") (lit "OggS") 4 =? 0) with false.
    change (strncmp (lit "FORM") (lit "RIFF") 4 =? 0) with false.
    change (strncmp (lit "FORM") (lit "FORM") 4 =? 0) with true.
    rewrite andb_false_r. cbn [orb]. destruct (HAVE_LIBSNDFILE cfg); reflexivity.
  - change (strncmp (lit "fLaC") (lit "MThd") 4 =? 0) with false.
    change (strncmp (lit "fLaC") (lit "OggS") 4 =? 0) with false.
    change (strncmp (lit "fLaC") (lit "RIFF") 4 =? 0) with false.
    change (strncmp (lit "fLaC") (lit "FORM") 4 =? 0) with false.
    change (strncmp (lit "fLaC") (lit "fLaC") 4 =? 0) with true.
    rewrite andb_false_r. cbn [orb]. destruct (HAVE_LIBSNDFILE cfg); reflexivity.
Qed.

Lemma Create_generic_formats_witness :
  Create full_build all_claims true (stream_of (lit "fLaC" ++ [x00; x00])) true
    = (stream_of (lit "fLaC" ++ [x00; x00]), true,
       Some (AudioResampler (Constructed LibsndfileDecoder))).
Proof.
  rewrite (Create_generic_formats full_build all_claims true
             (stream_of (lit "fLaC" ++ [x00; x00])) true);
    [reflexivity | reflexivity | right; reflexivity].
Defined.

(** X8. A RIFF stream of at least 22 bytes: in a build with the fast WAV
    path, the 16-bit little-endian format code at offset 20 decides; code
    1 (PCM) gives the [WavDecoder], any other code, or a build without
    that path, gives libsndfile if compiled in and [nullptr] if not.
    Either way the stream is back at offset 0 with no flag set. *)
Theorem Create_riff cfg env works s resample (c0 c1 : byte) :
  stream_good s = true ->
  take 4 (ahead s) = lit "RIFF" ->
  22 <= Z.of_nat (List.length (contents s)) ->
  take 2 (drop 20 (contents s)) = [c0; c1] ->
  Create cfg env works s resample =
    (at_start s, works,
     if WANT_FASTWAV cfg && (byte_val c0 + 256 * byte_val c1 =? 1)
     then Some (add_resampler cfg resample (Constructed WavDecoder))
     else if HAVE_LIBSNDFILE cfg
          then Some (add_resampler cfg resample (Constructed LibsndfileDecoder))
          else None).
Proof.
  intros Hgood Hmagic Hlen Hcode.
  rewrite Create_after_magic; [|exact Hgood | exact (take_4_length _ _ Hmagic eq_refl)].
  rewrite Hmagic. unfold Create_ogg, Create_fastwav, Create_common.
  change (strncmp (lit "RIFF") (lit "MThd") 4 =? 0) with false.
  change (strncmp (lit "RIFF") (lit "OggS") 4 =? 0) with false.
  change (strncmp (lit "RIFF") (lit "RIFF") 4 =? 0) with true.
  rewrite andb_true_r. cbn [orb].
  destruct (WANT_FASTWAV cfg); cbn [andb];
    [|destruct (HAVE_LIBSNDFILE cfg); reflexivity].
  destruct (stream_read (seekg 20 (at_start s)) 2) as [s2 got] eqn:Hread.
  apply probe_restores in Hread as (-> & _ & ->); [|lia|lia].
  change (Z.to_nat 20) with 20%nat. rewrite Hcode.
  unfold read_into, le16. cbn [app hd tl].
  destruct (byte_val c0 + 256 * byte_val c1 =? 1); [reflexivity|].
  destruct (HAVE_LIBSNDFILE cfg); reflexivity.
Qed.

Lemma Create_riff_witness :
  Create full_build all_claims true
    (stream_of (lit "RIFF" ++ replicate 16 x00 ++ [x01; x00; x02; x00])) false
  = (stream_of (lit "RIFF" ++ replicate 16 x00 ++ [x01; x00; x02; x00]), true,
     Some (Constructed WavDecoder)).
Proof.
  rewrite (Create_riff full_build all_claims true
             (stream_of (lit "RIFF" ++ replicate 16 x00 ++ [x01; x00; x02; x00]))
             false x01 x00);
    [reflexivity | reflexivity | reflexivity | vm_compute; discriminate | reflexivity].
Defined.

(** X9. A stream that begins with "MThd" is handed to the MIDI
    sub-classifier. If that produces a decoder, the decoder is returned
    as it is. If not, only the tracker test and the MP3 decoder are
    tried: such a stream never reaches the Ogg, WAV or libsndfile
    decoders and never gives the WMA sentinel. *)
Theorem Create_midi_routing cfg env works s resample :
  stream_good s = true ->
  take 4 (ahead s) = lit "MThd" ->
  (snd (MidiDecoder_Create env (at_start s) resample) = true ->
   Create cfg env works s resample =
     (fst (MidiDecoder_Create env (at_start s) resample), works,
      Some (Constructed MidiDecoder))) /\
  (forall c,
      returned_decoder (Create cfg env works s resample) = Some c ->
      created_class c = Some MidiDecoder \/
      created_class c = Some XMPDecoder \/
      created_class c = Some Mpg123Decoder).
Proof.
  intros Hgood Hmagic.
  rewrite Create_after_magic; [|exact Hgood | exact (take_4_length _ _ Hmagic eq_refl)].
  rewrite Hmagic.
  change (strncmp (lit "MThd") (lit "MThd") 4 =? 0) with true. cbv iota.
  destruct (MidiDecoder_Create env (at_start s) resample) as [s1 midi].
  cbn [fst snd]. split; [intros ->; reflexivity|].
  destruct midi; [intros c [= <-]; left; reflexivity|].
  unfold Create_ogg, Create_fastwav, Create_common, Create_mpg123, Create_nothing.
  change (strncmp (lit "MThd") (lit "OggS") 4 =? 0) with false.
  change (strncmp (lit "MThd") (lit "RIFF") 4 =? 0) with false.
  change (strncmp (lit "MThd") (lit "FORM") 4 =? 0) with false.
  change (strncmp (lit "MThd") (lit "fLaC") 4 =? 0) with false.
  change (memcmp (lit "MThd") wma_magic 4 =? 0) with false.
  change (strncmp (lit "MThd") (lit "ID3") 3 =? 0) with false.
  rewrite andb_false_r. cbn [orb]. unfold add_resampler, returned_decoder.
  destruct (Mpg123Decoder_IsMp3 env s1) as [s2 is_mp3].
  intros c.
  destruct (HAVE_XMP cfg && XMPDecoder_IsModule env (stream_name s1)),
    (USE_AUDIO_RESAMPLER cfg && resample), (HAVE_MPG123 cfg), works,
    (Mpg123Decoder_WasInited env), is_mp3;
    cbn [snd]; intros [= <-]; cbn [created_class]; auto.
Qed.

Lemma Create_midi_routing_witness :
  Create full_build all_claims true (stream_of (lit "MThd" ++ [x00; x00])) true
    = (stream_of (lit "MThd" ++ [x00; x00]), true, Some (Constructed MidiDecoder)).
Proof.
  destruct (Create_midi_routing full_build all_claims true
              (stream_of (lit "MThd" ++ [x00; x00])) true) as [Hmidi _];
    [reflexivity | reflexivity |].
  rewrite Hmidi; reflexivity.
Defined.

(** ** Every path of the factory *)

(** Case analysis on every test and on every answer of a collaborator
    that [Create] goes through. *)
Ltac Create_paths :=
  unfold Create, Create_ogg, Create_vorbis, Create_fastwav, Create_common,
    Create_mpg123, Create_nothing, add_resampler,
    returned_decoder, returned_flag, returned_stream;
  repeat match goal with
         | |- context [match ?x with (_, _) => _ end] => destruct x
         | |- context [if ?c then _ else _] => destruct c eqn:?
         end.

(** X10. The flag [mpg123_works] only ever goes from true to false: a
    call of [Create] never sets it again. It is cleared only in a build
    with mpg123 whose decoder did not initialise, in a call that returns
    [nullptr]. While it is false, [Create] does not return an MP3
    decoder. *)
Theorem Create_mpg123_flag cfg env works s resample :
  (returned_flag (Create cfg env works s resample) = true -> works = true) /\
  (returned_flag (Create cfg env works s resample) <> works ->
   HAVE_MPG123 cfg = true /\ Mpg123Decoder_WasInited env = false /\
   returned_decoder (Create cfg env works s resample) = None) /\
  (works = false ->
   forall c, returned_decoder (Create cfg env works s resample) = Some c ->
             created_class c <> Some Mpg123Decoder).
Proof.
  Create_paths; cbn [fst snd];
    (split; [|split]);
    try (intros; congruence);
    try (intros Hne; exfalso; apply Hne; reflexivity);
    try (intros _; repeat split; assumption);
    try (intros -> c [= <-]; cbn [created_class]; discriminate);
    try (intros Hw; discriminate Hw).
Qed.

(** X11. [Create] wraps a decoder in the resampler exactly when the
    resampler is compiled in and asked for, and never twice. What the
    MIDI sub-classifier hands back and the WMA sentinel are returned
    without a wrapper of [Create]'s own. *)
Theorem Create_resampler cfg env works s resample :
  forall c,
    returned_decoder (Create cfg env works s resample) = Some c ->
    match c with
    | AudioResampler (Constructed k) =>
        USE_AUDIO_RESAMPLER cfg && resample = true /\ k <> MidiDecoder
    | AudioResampler _ => False
    | Constructed k => k = MidiDecoder \/ USE_AUDIO_RESAMPLER cfg && resample = false
    | Sentinel _ => True
    end.
Proof.
  Create_paths; cbn [fst snd]; intros c Hc; try discriminate Hc;
    injection Hc as <-; try exact I; try (left; reflexivity);
    try (right; reflexivity); try (split; [reflexivity | discriminate]).
Qed.

(** ** The probes of the Ogg branch *)

Lemma byte_val_inj c1 c2 : byte_val c1 = byte_val c2 -> c1 = c2.
Proof.
  unfold byte_val. intros Hv. apply N2Z.inj in Hv.
  pose proof (Byte.of_to_N c1) as H1. rewrite Hv, Byte.of_to_N in H1.
  congruence.
Qed.

(** A comparison with a tag that holds no NUL is an equality test. *)
Lemma strncmp_zero n : forall (a tag : list byte),
  List.length a = n -> List.length tag = n ->
  Forall (fun c => c <> x00) tag ->
  strncmp a tag n = 0 -> a = tag.
Proof.
  induction n as [|n IH]; intros a tag Ha Ht Hnul Hcmp.
  { destruct a, tag; try discriminate. reflexivity. }
  destruct a as [|c1 a], tag as [|c2 tag]; try discriminate.
  cbn [strncmp hd tl] in Hcmp. apply Forall_cons_1 in Hnul as [Hc2 Hnul].
  destruct (Byte.eqb c1 c2) eqn:Heq; cbn [negb] in Hcmp.
  - apply Byte.byte_dec_bl in Heq. subst c2.
    destruct (Byte.eqb c1 x00) eqn:Hz; [apply Byte.byte_dec_bl in Hz; contradiction|].
    f_equal. apply IH; try assumption; cbn in Ha, Ht; lia.
  - assert (c1 = c2) by (apply byte_val_inj; lia). subst c2.
    rewrite (Byte.byte_dec_lb eq_refl) in Heq. discriminate Heq.
Qed.

Lemma strncmp_differs (a tag : list byte) :
  List.length a = 4%nat -> List.length tag = 4%nat ->
  Forall (fun c => c <> x00) tag ->
  a <> tag -> (strncmp a tag 4 =? 0) = false.
Proof.
  intros Ha Ht Hnul Hne. apply Z.eqb_neq. intros Hcmp.
  apply Hne. exact (strncmp_zero 4 a tag Ha Ht Hnul Hcmp).
Qed.

Lemma bytes_at_length k s :
  Z.of_nat k + 4 <= Z.of_nat (List.length (contents s)) ->
  List.length (bytes_at k s) = 4%nat.
Proof. intros Hk. unfold bytes_at. rewrite length_take, length_drop. lia. Qed.

Lemma Create_vorbis_probe cfg env works s resample magic :
  List.length magic = 4%nat ->
  33 <= Z.of_nat (List.length (contents s)) ->
  HAVE_TREMOR cfg || HAVE_OGGVORBIS cfg = true ->
  Create_vorbis cfg env works (at_start s) resample magic =
    if strncmp (bytes_at 29 s) (lit "vorb") 4 =? 0
    then (at_start s, works, Some (add_resampler cfg resample (Constructed OggVorbisDecoder)))
    else Create_fastwav cfg env works (at_start s) resample (bytes_at 29 s).
Proof.
  intros Hmagic Hlen Hvorbis. unfold Create_vorbis. rewrite Hvorbis.
  destruct (stream_read (seekg 29 (at_start s)) 4) as [s2 got] eqn:Hread.
  apply probe_restores in Hread as (Hgot & Hgl & ->); [|lia|lia].
  change (Z.to_nat 29) with 29%nat in Hgot. fold (bytes_at 29 s) in Hgot. subst got.
  rewrite read_into_full by lia. rewrite Hgl. reflexivity.
Qed.

Lemma Create_ogg_probe cfg env works s resample :
  33 <= Z.of_nat (List.length (contents s)) ->
  Create_ogg cfg env works (at_start s) resample (lit "OggS") =
    if HAVE_OPUS cfg then
      if strncmp (bytes_at 28 s) (lit "Opus") 4 =? 0
      then (at_start s, works, Some (add_resampler cfg resample (Constructed OpusDecoder)))
      else Create_vorbis cfg env works (at_start s) resample (bytes_at 28 s)
    else Create_vorbis cfg env works (at_start s) resample (lit "OggS").
Proof.
  intros Hlen. unfold Create_ogg.
  change (strncmp (lit "OggS") (lit "OggS") 4 =? 0) with true. cbv iota.
  destruct (HAVE_OPUS cfg); [|reflexivity].
  destruct (stream_read (seekg 28 (at_start s)) 4) as [s2 got] eqn:Hread.
  apply probe_restores in Hread as (Hgot & Hgl & ->); [|lia|lia].
  change (Z.to_nat 28) with 28%nat in Hgot. fold (bytes_at 28 s) in Hgot. subst got.
  rewrite read_into_full by (rewrite Hgl; reflexivity). rewrite Hgl. reflexivity.
Qed.

Lemma tag_no_nul_Opus : Forall (fun c => c <> x00) (lit "Opus").
Proof. repeat constructor; discriminate. Qed.

Lemma tag_no_nul_vorb : Forall (fun c => c <> x00) (lit "vorb").
Proof. repeat constructor; discriminate. Qed.

Lemma Create_ogg_past_opus cfg env works s resample :
  stream_good s = true ->
  take 4 (ahead s) = lit "OggS" ->
  33 <= Z.of_nat (List.length (contents s)) ->
  HAVE_OPUS cfg = false \/ bytes_at 28 s <> lit "Opus" ->
  HAVE_TREMOR cfg || HAVE_OGGVORBIS cfg = true ->
  Create cfg env works s resample =
    if strncmp (bytes_at 29 s) (lit "vorb") 4 =? 0
    then (at_start s, works,
          Some (add_resampler cfg resample (Constructed OggVorbisDecoder)))
    else Create_fastwav cfg env works (at_start s) resample (bytes_at 29 s).
Proof.
  intros Hgood Hmagic Hlen Hopus Hvorbis.
  rewrite Create_after_magic; [|exact Hgood | exact (take_4_length _ _ Hmagic eq_refl)].
  rewrite Hmagic. change (strncmp (lit "OggS") (lit "MThd") 4 =? 0) with false.
  cbv iota. rewrite Create_ogg_probe by exact Hlen.
  pose proof (bytes_at_length 28 s ltac:(lia)) as H28.
  destruct (HAVE_OPUS cfg).
  - destruct Hopus as [Habs|Hne]; [discriminate Habs|].
    rewrite (strncmp_differs (bytes_at 28 s) (lit "Opus") H28 eq_refl tag_no_nul_Opus Hne).
    apply Create_vorbis_probe; assumption.
  - apply Create_vorbis_probe; [reflexivity | assumption..].
Qed.

(** X12. An Ogg stream of at least 33 bytes: "Opus" at offset 28 gives
    the Opus decoder in a build with Opus; otherwise "vorb" at offset 29
    gives the Vorbis decoder in a build with Vorbis; a build with neither
    probe hands the stream to libsndfile. The probes read into the magic
    itself: in a build with the Vorbis probe, a stream of another codec is
    classified further by its bytes 29..32, not by "OggS". *)
Theorem Create_ogg_routing cfg env works s resample :
  stream_good s = true ->
  take 4 (ahead s) = lit "OggS" ->
  33 <= Z.of_nat (List.length (contents s)) ->
  (HAVE_OPUS cfg = true -> bytes_at 28 s = lit "Opus" ->
   Create cfg env works s resample =
     (at_start s, works, Some (add_resampler cfg resample (Constructed OpusDecoder)))) /\
  (HAVE_OPUS cfg = false \/ bytes_at 28 s <> lit "Opus" ->
   HAVE_TREMOR cfg || HAVE_OGGVORBIS cfg = true ->
   bytes_at 29 s = lit "vorb" ->
   Create cfg env works s resample =
     (at_start s, works,
      Some (add_resampler cfg resample (Constructed OggVorbisDecoder)))) /\
  (HAVE_OPUS cfg = false ->
   HAVE_TREMOR cfg || HAVE_OGGVORBIS cfg = false ->
   Create cfg env works s resample =
     (at_start s, works,
      if HAVE_LIBSNDFILE cfg
      then Some (add_resampler cfg resample (Constructed LibsndfileDecoder))
      else None)) /\
  (HAVE_OPUS cfg = false \/ bytes_at 28 s <> lit "Opus" ->
   HAVE_TREMOR cfg || HAVE_OGGVORBIS cfg = true ->
   bytes_at 29 s <> lit "vorb" ->
   Create cfg env works s resample =
     Create_fastwav cfg env works (at_start s) resample (bytes_at 29 s)).
Proof.
  intros Hgood Hmagic Hlen.
  pose proof (bytes_at_length 29 s ltac:(lia)) as H29.
  split; [|split; [|split]].
  - intros Hopus Hbytes.
    rewrite Create_after_magic; [|exact Hgood | exact (take_4_length _ _ Hmagic eq_refl)].
    rewrite Hmagic. change (strncmp (lit "OggS") (lit "MThd") 4 =? 0) with false.
    cbv iota. rewrite Create_ogg_probe by exact Hlen.
    rewrite Hopus, Hbytes. reflexivity.
  - intros Hopus Hvorbis Hw.
    rewrite (Create_ogg_past_opus cfg env works s resample) by assumption.
    rewrite Hw. reflexivity.
  - intros Hopus Hvorbis.
    rewrite Create_after_magic; [|exact Hgood | exact (take_4_length _ _ Hmagic eq_refl)].
    rewrite Hmagic. change (strncmp (lit "OggS") (lit "MThd") 4 =? 0) with false.
    cbv iota. rewrite Create_ogg_probe by exact Hlen. rewrite Hopus.
    unfold Create_vorbis, Create_fastwav, Create_common.
    rewrite Hvorbis.
    change (strncmp (lit "OggS") (lit "RIFF") 4 =? 0) with false.
    change (strncmp (lit "OggS") (lit "FORM") 4 =? 0) with false.
    change (strncmp (lit "OggS") (lit "OggS") 4 =? 0) with true.
    rewrite andb_false_r. cbn [orb]. destruct (HAVE_LIBSNDFILE cfg); reflexivity.
  - intros Hopus Hvorbis Hw.
    rewrite (Create_ogg_past_opus cfg env works s resample) by assumption.
    rewrite (strncmp_differs (bytes_at 29 s) (lit "vorb") H29 eq_refl tag_no_nul_vorb Hw).
    reflexivity.
Qed.

Lemma Create_ogg_routing_witness :
  Create full_build no_claims true (stream_of ogg_vorbis_page) true
    = (stream_of ogg_vorbis_page, true,
       Some (AudioResampler (Constructed OggVorbisDecoder))).
Proof.
  destruct (Create_ogg_routing full_build no_claims true
              (stream_of ogg_vorbis_page) true) as (_ & Hvorbis & _);
    [reflexivity | reflexivity | vm_compute; discriminate |].
  rewrite Hvorbis;
    [reflexivity | right; vm_compute; discriminate | reflexivity | reflexivity].
Defined.

Lemma tag_no_nul_RIFF : Forall (fun c => c <> x00) (lit "RIFF").
Proof. repeat constructor; discriminate. Qed.

Lemma tag_no_nul_FORM : Forall (fun c => c <> x00) (lit "FORM").
Proof. repeat constructor; discriminate. Qed.

Lemma tag_no_nul_OggS : Forall (fun c => c <> x00) (lit "OggS").
Proof. repeat constructor; discriminate. Qed.

Lemma tag_no_nul_fLaC : Forall (fun c => c <> x00) (lit "fLaC").
Proof. repeat constructor; discriminate. Qed.

(** With a magic that is none of the container tags, the fast WAV path,
    libsndfile and the Ogg decoders are out of reach. *)
Lemma Create_fastwav_untagged cfg env works stream resample magic :
  List.length magic = 4%nat ->
  magic <> lit "RIFF" -> magic <> lit "FORM" ->
  magic <> lit "OggS" -> magic <> lit "fLaC" ->
  forall c,
    returned_decoder (Create_fastwav cfg env works stream resample magic) = Some c ->
    created_class c = None \/
    created_class c = Some XMPDecoder \/
    created_class c = Some Mpg123Decoder.
Proof.
  intros Hlen HR HF HO HL.
  unfold Create_fastwav, Create_common.
  rewrite (strncmp_differs magic (lit "RIFF") Hlen eq_refl tag_no_nul_RIFF HR).
  rewrite (strncmp_differs magic (lit "FORM") Hlen eq_refl tag_no_nul_FORM HF).
  rewrite (strncmp_differs magic (lit "OggS") Hlen eq_refl tag_no_nul_OggS HO).
  rewrite (strncmp_differs magic (lit "fLaC") Hlen eq_refl tag_no_nul_fLaC HL).
  rewrite andb_false_r. cbn [orb].
  unfold Create_mpg123, Create_nothing, add_resampler, returned_decoder.
  repeat match goal with
         | |- context [match ?x with (_, _) => _ end] => destruct x
         | |- context [if ?c then _ else _] => destruct c
         end;
    cbn [snd]; intros c Hc; try discriminate Hc; injection Hc as <-;
    cbn [created_class]; auto.
Qed.

(** X13. In a build with the Vorbis probe, an Ogg stream of at least 33
    bytes whose codec is neither Opus nor Vorbis, and whose bytes 29..32
    are not by chance a container tag, is not handed to libsndfile even
    when libsndfile is compiled in: the probe has overwritten the "OggS"
    that the libsndfile step tests for. What is left is the WMA notice,
    the tracker test, the MP3 decoder, or [nullptr]. *)
Theorem Create_ogg_other_codec cfg env works s resample :
  stream_good s = true ->
  take 4 (ahead s) = lit "OggS" ->
  33 <= Z.of_nat (List.length (contents s)) ->
  HAVE_OPUS cfg = false \/ bytes_at 28 s <> lit "Opus" ->
  HAVE_TREMOR cfg || HAVE_OGGVORBIS cfg = true ->
  bytes_at 29 s <> lit "vorb" ->
  bytes_at 29 s <> lit "RIFF" -> bytes_at 29 s <> lit "FORM" ->
  bytes_at 29 s <> lit "OggS" -> bytes_at 29 s <> lit "fLaC" ->
  forall c,
    returned_decoder (Create cfg env works s resample) = Some c ->
    created_class c = None \/
    created_class c = Some XMPDecoder \/
    created_class c = Some Mpg123Decoder.
Proof.
  intros Hgood Hmagic Hlen Hopus Hvorbis Hw HR HF HO HL.
  pose proof (bytes_at_length 29 s ltac:(lia)) as H29.
  rewrite (Create_ogg_past_opus cfg env works s resample) by assumption.
  rewrite (strncmp_differs (bytes_at 29 s) (lit "vorb") H29 eq_refl tag_no_nul_vorb Hw).
  apply Create_fastwav_untagged; assumption.
Qed.

Lemma Create_ogg_other_codec_witness :
  returned_decoder (Create full_build no_claims true (stream_of ogg_speex_page) true)
    = None.
Proof.
  pose proof (Create_ogg_other_codec full_build no_claims true
                (stream_of ogg_speex_page) true) as Hother.
  destruct (returned_decoder
              (Create full_build no_claims true (stream_of ogg_speex_page) true))
    as [c|] eqn:Hrun; [|reflexivity].
  exfalso.
  destruct (Hother eq_refl eq_refl) with (c := c) as [Hc|[Hc|Hc]];
    try (vm_compute; discriminate); try (right; vm_compute; discriminate);
    try reflexivity; try exact Hrun;
    vm_compute in Hrun; discriminate Hrun.
Defined.

Lemma Create_mpg123_flag_witness :
  returned_decoder
    (Create full_build mpg123_broken true (stream_of (lit "abcd")) false) = None.
Proof.
  destruct (Create_mpg123_flag full_build mpg123_broken true
              (stream_of (lit "abcd")) false) as (_ & Hcleared & _).
  apply Hcleared. vm_compute. discriminate.
Defined.

Lemma Create_resampler_witness :
  USE_AUDIO_RESAMPLER full_build && true = true /\ OggVorbisDecoder <> MidiDecoder.
Proof.
  exact (Create_resampler full_build no_claims true (stream_of ogg_vorbis_page) true
           (AudioResampler (Constructed OggVorbisDecoder)) eq_refl).
Defined.

(** ** The stream after [Create] *)

Lemma at_start_rewound s : stream_rewound (at_start s).
Proof. repeat split. Qed.

Lemma clear_seek_rewound st : stream_rewound (seekg 0 (stream_clear st)).
Proof. exact (Create_nothing_rewound true st). Qed.

Lemma Create_mpg123_rewound cfg env works st resample magic :
  stream_rewound st ->
  stream_rewound (returned_stream (Create_mpg123 cfg env works st resample magic)).
Proof.
  intros Hst. unfold Create_mpg123, Create_nothing, returned_stream.
  repeat match goal with
         | |- context [match ?x with (_, _) => _ end] => destruct x
         | |- context [if ?c then _ else _] => destruct c
         end;
    cbn [fst]; try exact Hst; apply clear_seek_rewound.
Qed.

Lemma Create_common_rewound cfg env works st resample magic :
  stream_rewound st ->
  stream_rewound (returned_stream (Create_common cfg env works st resample magic)).
Proof.
  intros Hst. unfold Create_common.
  repeat match goal with
         | |- context [if ?c then _ else _] => destruct c
         end;
    try exact Hst; apply Create_mpg123_rewound; exact Hst.
Qed.

Lemma Create_fastwav_rewound cfg env works s resample magic :
  22 <= Z.of_nat (List.length (contents s)) ->
  stream_rewound
    (returned_stream (Create_fastwav cfg env works (at_start s) resample magic)).
Proof.
  intros Hlen. unfold Create_fastwav.
  destruct (WANT_FASTWAV cfg && (strncmp magic (lit "RIFF") 4 =? 0));
    [|apply Create_common_rewound, at_start_rewound].
  destruct (stream_read (seekg 20 (at_start s)) 2) as [s2 got] eqn:Hread.
  apply probe_restores in Hread as (_ & _ & ->); [|lia|lia].
  destruct (_ =? 1); [apply at_start_rewound|].
  apply Create_common_rewound, at_start_rewound.
Qed.

Lemma Create_vorbis_rewound cfg env works s resample magic :
  List.length magic = 4%nat ->
  33 <= Z.of_nat (List.length (contents s)) ->
  stream_rewound
    (returned_stream (Create_vorbis cfg env works (at_start s) resample magic)).
Proof.
  intros Hmagic Hlen.
  destruct (HAVE_TREMOR cfg || HAVE_OGGVORBIS cfg) eqn:Hvorbis.
  - rewrite Create_vorbis_probe by assumption.
    destruct (_ =? 0); [apply at_start_rewound|].
    apply Create_fastwav_rewound. lia.
  - unfold Create_vorbis. rewrite Hvorbis. apply Create_fastwav_rewound. lia.
Qed.

Lemma Create_ogg_rewound cfg env works s resample magic :
  List.length magic = 4%nat ->
  33 <= Z.of_nat (List.length (contents s)) ->
  stream_rewound
    (returned_stream (Create_ogg cfg env works (at_start s) resample magic)).
Proof.
  intros Hmagic Hlen.
  destruct (strncmp magic (lit "OggS") 4 =? 0) eqn:Hogg.
  - apply Z.eqb_eq in Hogg.
    apply (strncmp_zero 4 magic (lit "OggS") Hmagic eq_refl tag_no_nul_OggS) in Hogg.
    subst magic. rewrite Create_ogg_probe by exact Hlen.
    destruct (HAVE_OPUS cfg); [|apply Create_vorbis_rewound; [reflexivity | exact Hlen]].
    destruct (_ =? 0); [apply at_start_rewound|].
    apply Create_vorbis_rewound; [apply bytes_at_length; lia | exact Hlen].
  - unfold Create_ogg. rewrite Hogg. apply Create_fastwav_rewound. lia.
Qed.

Lemma tag_no_nul_MThd : Forall (fun c => c <> x00) (lit "MThd").
Proof. repeat constructor; discriminate. Qed.

(** With the magic of a MIDI file none of the probes is run: the stream
    is returned as it came, or cleared and rewound. *)
Lemma Create_ogg_MThd_rewound cfg env works st resample :
  stream_rewound st ->
  stream_rewound
    (returned_stream (Create_ogg cfg env works st resample (lit "MThd"))).
Proof.
  intros Hst. unfold Create_ogg, Create_fastwav.
  change (strncmp (lit "MThd") (lit "OggS") 4 =? 0) with false.
  change (strncmp (lit "MThd") (lit "RIFF") 4 =? 0) with false.
  rewrite andb_false_r. cbv iota.
  apply Create_common_rewound, Hst.
Qed.

(** X14. [Create] leaves a stream of at least 33 bytes rewound, whatever
    it returns, under every build configuration: at offset 0 with no
    error flag. The stream may start anywhere as long as it is good and
    has four bytes ahead; every probe finds its bytes and seeks back. The
    one path [Create] does not control is the MIDI sub-classifier, which
    is asked to leave the stream rewound. *)
Theorem Create_rewinds cfg env works s resample :
  stream_good s = true ->
  (4 <= List.length (ahead s))%nat ->
  33 <= Z.of_nat (List.length (contents s)) ->
  stream_rewound (fst (MidiDecoder_Create env (at_start s) resample)) ->
  stream_rewound (returned_stream (Create cfg env works s resample)).
Proof.
  intros Hgood Hahead Hlen Hmidi.
  assert (Hmagic : List.length (take 4 (ahead s)) = 4%nat)
    by (rewrite length_take; lia).
  rewrite Create_after_magic by assumption.
  destruct (strncmp (take 4 (ahead s)) (lit "MThd") 4 =? 0) eqn:Hcmp;
    [|apply Create_ogg_rewound; assumption].
  apply Z.eqb_eq in Hcmp.
  apply (strncmp_zero 4 _ (lit "MThd") Hmagic eq_refl tag_no_nul_MThd) in Hcmp.
  rewrite Hcmp.
  destruct (MidiDecoder_Create env (at_start s) resample) as [st midi].
  cbn [fst] in Hmidi.
  destruct midi; [exact Hmidi|].
  apply Create_ogg_MThd_rewound, Hmidi.
Qed.

Lemma Create_rewinds_witness :
  stream_rewound
    (returned_stream
       (Create full_build no_claims true (stream_of ogg_speex_page) true)).
Proof.
  apply Create_rewinds;
    [reflexivity | vm_compute; lia | vm_compute; discriminate | repeat split].
Defined.

(** ** Reading the volume back *)

(** The mantissa of a converted [int] is the number shifted left. *)
Lemma binary_round_exact s p :
  Zpos (digits2_pos p) <= 53 ->
  exists m e, binary_round 53 1024 s p 0 = S754_finite s m e /\
              e <= 0 /\ Zpos m = Zpos p * 2 ^ (- e).
Proof.
  intros Hd. unfold binary_round. rewrite Z.add_0_r, fexp_small by lia.
  unfold shl_align. rewrite Z.sub_0_r.
  destruct (Zpos (digits2_pos p) - 53) as [|k|k] eqn:Ek; try lia.
  - exists p, 0. split; [apply binary_round_aux_canonical; lia|].
    split; [lia|]. cbn [Z.opp]. rewrite Z.pow_0_r. lia.
  - exists (Pos.iter xO p k), (Zneg k).
    split; [apply binary_round_aux_canonical; [rewrite digits2_pos_iter_xO|]; lia|].
    split; [lia|]. cbn [Z.opp].
    change (Pos.iter xO p k) with (shift_pos k p).
    rewrite shift_pos_correct, Zpower_pos_nat, Zpower_nat_Z, positive_nat_Z.
    apply Z.mul_comm.
Qed.

Lemma shiftl_back p e m :
  e <= 0 -> Zpos m = Zpos p * 2 ^ (- e) -> Z.shiftl (Zpos m) e = Zpos p.
Proof.
  intros He Hm.
  replace (Z.shiftl (Zpos m) e) with (Z.shiftr (Zpos m) (- e))
    by (rewrite <- Z.shiftl_opp_r, Z.opp_involutive; reflexivity).
  rewrite Hm, Z.shiftr_div_pow2 by lia.
  apply Z.div_mul. apply Z.pow_nonzero; lia.
Qed.

Lemma to_int_of_int v : in_int v -> to_int (of_int v) = Some v.
Proof.
  intros Hv. pose proof (in_int_small v Hv) as Hsmall.
  unfold in_int in Hv. destruct v as [|p|p]; [reflexivity| |].
  - destruct (binary_round_exact false p) as (m & e & Hround & He & Hm);
      [apply digits2_pos_le; lia|].
    unfold of_int, binary_normalize. rewrite Hround. unfold to_int.
    rewrite (shiftl_back p e m He Hm).
    destruct (Z.leb_spec INT_MIN (Zpos p)); [|lia].
    destruct (Z.leb_spec (Zpos p) INT_MAX); [reflexivity | lia].
  - destruct (binary_round_exact true p) as (m & e & Hround & He & Hm);
      [apply digits2_pos_le; lia|].
    unfold of_int, binary_normalize. rewrite Hround. unfold to_int.
    rewrite (shiftl_back p e m He Hm).
    change (- Zpos p) with (Zneg p).
    destruct (Z.leb_spec INT_MIN (Zneg p)); [|lia].
    destruct (Z.leb_spec (Zneg p) INT_MAX); [reflexivity | lia].
Qed.

(** X15. What [SetVolume] stores, [GetVolume] reads back: the conversion
    of an [int] to [double] and back loses nothing, for every [int],
    also outside the range of a volume. The same holds for the target of
    a fade that [SetFade] applies at once, because its duration is not
    positive or its ends agree. *)
Theorem GetVolume_SetVolume v b t a :
  in_int v -> in_int t ->
  GetVolume (SetVolume v a) = Some v /\
  (t <= 0 \/ b = v -> GetVolume (SetFade b v t a) = Some v).
Proof.
  intros Hv Ht. split.
  - unfold GetVolume, SetVolume. cbn [set_volume volume]. apply to_int_of_int, Hv.
  - intros Hnow. unfold GetVolume, SetFade.
    rewrite of_int_le_zero by (apply in_int_small, Ht).
    destruct (Z.leb_spec t 0) as [Hle|Hgt].
    + cbn [set_volume set_fade_time volume]. apply to_int_of_int, Hv.
    + destruct Hnow as [Hle| ->]; [lia|].
      rewrite Z.eqb_refl. cbn [set_volume set_fade_time volume].
      apply to_int_of_int, Hv.
Qed.

Lemma GetVolume_SetVolume_witness :
  GetVolume (SetVolume 200 idle_decoder) = Some 200 /\
  GetVolume (SetFade 30 (-7) 0 idle_decoder) = Some (-7).
Proof.
  destruct (GetVolume_SetVolume 200 0 0 idle_decoder) as [Hset _];
    [vm_compute; split; discriminate | vm_compute; split; discriminate |].
  destruct (GetVolume_SetVolume (-7) 30 0 idle_decoder) as [_ Hfade];
    [vm_compute; split; discriminate | vm_compute; split; discriminate |].
  split; [exact Hset | apply Hfade; left; lia].
Defined.

(** ** The end of a fade *)

Lemma of_int_positive n :
  0 < n < 2 ^ 53 ->
  exists m e, of_int n = S754_finite false m e /\ e <= 0 /\ Zpos m = n * 2 ^ (- e).
Proof.
  intros Hn. destruct n as [|p|p]; try lia.
  apply binary_round_exact, digits2_pos_le; lia.
Qed.

(** Aligning a mantissa to a smaller exponent multiplies it by the power
    of two between them. *)
Lemma shl_align_value m e ez :
  ez <= e -> Zpos (fst (shl_align m e ez)) = Zpos m * 2 ^ (e - ez).
Proof.
  intros Hez. unfold shl_align.
  destruct (ez - e) as [|d|d] eqn:Ed; try lia; cbn [fst].
  - replace (e - ez) with 0 by lia. rewrite Z.pow_0_r. lia.
  - change (Pos.iter xO m d) with (shift_pos d m).
    rewrite shift_pos_correct, Zpower_pos_nat, Zpower_nat_Z, positive_nat_Z.
    replace (e - ez) with (Zpos d) by lia. apply Z.mul_comm.
Qed.

(** Rounding keeps the sign. *)
Lemma binary_round_aux_sign s m e l :
  match binary_round_aux 53 1024 s m e l with
  | S754_zero s' | S754_infinity s' | S754_finite s' _ _ => s' = s
  | S754_nan => True
  end.
Proof.
  unfold binary_round_aux.
  destruct (shr_fexp 53 1024 m e l) as [mrs1 e1].
  destruct (shr_fexp 53 1024 _ e1 loc_Exact) as [mrs2 e2].
  destruct (shr_m mrs2); [reflexivity | | exact I].
  destruct (e2 <=? 1024 - 53); reflexivity.
Qed.

Lemma binary_round_negative p e : dle (binary_round 53 1024 true p e) d0 = true.
Proof.
  pose proof (binary_round_not_nan true p e) as Hnan.
  unfold binary_round in *. destruct (shl_align _ _ _) as [mz ez].
  pose proof (binary_round_aux_sign true (Zpos mz) ez loc_Exact) as Hsign.
  destruct (binary_round_aux 53 1024 true (Zpos mz) ez loc_Exact) as [s'|s'| |s' m' e'];
    try discriminate Hnan; subst s'; reflexivity.
Qed.

(** The time left of a fade of [t] after a step of [delta >= t] is not
    positive. *)
Lemma dsub_of_int_le t delta :
  0 < t -> t <= delta -> delta < 2 ^ 53 ->
  dle (dsub (of_int t) (of_int delta)) d0 = true.
Proof.
  intros Ht Hle Hdelta.
  destruct (of_int_positive t) as (m1 & e1 & -> & He1 & Hm1); [lia|].
  destruct (of_int_positive delta) as (m2 & e2 & -> & He2 & Hm2); [lia|].
  unfold dsub, SFsub. cbn [cond_Zopp].
  set (ez := Z.min e1 e2).
  rewrite !shl_align_value by (unfold ez; lia).
  rewrite Hm1, Hm2, <- !Z.mul_assoc, <- !Z.pow_add_r by (unfold ez; lia).
  replace (- e1 + (e1 - ez)) with (- ez) by lia.
  replace (- e2 + (e2 - ez)) with (- ez) by lia.
  rewrite <- Z.mul_sub_distr_r.
  assert (Hpow : 0 < 2 ^ (- ez)) by (apply Z.pow_pos_nonneg; unfold ez; lia).
  destruct ((t - delta) * 2 ^ (- ez)) as [|z|z] eqn:Ez; [reflexivity | nia |].
  cbn [binary_normalize]. apply binary_round_negative.
Qed.

Lemma dsub_self x : is_finite x = true -> is_nan x = false -> dsub x x = d0.
Proof.
  destruct x as [s|s| |s m e]; try discriminate; intros _ _.
  - destruct s; reflexivity.
  - unfold dsub, SFsub. rewrite Z.sub_diag. reflexivity.
Qed.

(** X16. A fade is over once the time handed to one [Update] reaches its
    duration: after [SetFade(begin, end, t)] with [begin != end] and
    [t > 0], an [Update(delta)] with [delta >= t] leaves no time, so
    that every later [Update] changes nothing; with [delta = t] the time
    left is exactly [0.0]. *)
Theorem fade_runs_out b e t delta a :
  in_int t -> in_int delta -> 0 < t -> t <= delta -> b <> e ->
  dle (fade_time (Update delta (SetFade b e t a))) d0 = true /\
  (delta = t -> fade_time (Update delta (SetFade b e t a)) = d0) /\
  (forall deltas,
     fold_left (fun s d => Update d s) deltas (Update delta (SetFade b e t a))
       = Update delta (SetFade b e t a)).
Proof.
  intros Ht Hdelta Hpos Hle Hne.
  pose proof (in_int_small t Ht) as Hsmall.
  pose proof (in_int_small delta Hdelta) as Hsmall'.
  assert (Htime : fade_time (Update delta (SetFade b e t a))
                  = dsub (of_int t) (of_int delta)).
  { unfold SetFade. rewrite of_int_le_zero by exact Hsmall.
    destruct (Z.leb_spec t 0); [lia|].
    destruct (Z.eqb_spec b e); [contradiction|].
    unfold Update.
    cbn [fade_time set_delta_step set_fade_time set_fade_end set_volume].
    rewrite of_int_le_zero by exact Hsmall.
    destruct (Z.leb_spec t 0); [lia|]. reflexivity. }
  assert (Hover : dle (fade_time (Update delta (SetFade b e t a))) d0 = true).
  { rewrite Htime. apply dsub_of_int_le; lia. }
  split; [exact Hover|]. split.
  - intros ->. rewrite Htime. apply dsub_self.
    + apply of_int_finite, Hsmall.
    + destruct (of_int_positive t) as (m & e' & -> & _); [lia | reflexivity].
  - intros deltas. apply Updates_idle, Hover.
Qed.

Lemma fade_runs_out_witness :
  fold_left (fun s d => Update d s) [5; 1000; -3]
    (Update 250 (SetFade 0 100 200 idle_decoder))
  = Update 250 (SetFade 0 100 200 idle_decoder).
Proof.
  assert (H200 : in_int 200) by (vm_compute; split; discriminate).
  assert (H250 : in_int 250) by (vm_compute; split; discriminate).
  destruct (fade_runs_out 0 100 200 250 idle_decoder H200 H250)
    as (_ & _ & Hidle); [lia | lia | lia |].
  exact (Hidle [5; 1000; -3]).
Defined.

(** X17. [fade_end] is written by [SetFade] and read nowhere else:
    [Update] works from the step alone, so the member has no influence on
    it, and the volume at the end of a fade is where the rounded steps
    have led, not the target. The fade from 0 to 1 over 49 time units
    ends just below 1, which [GetVolume] reports as 0. *)
Theorem Update_ignores_fade_end :
  (forall x delta a,
     Update delta (set_fade_end x a) = set_fade_end x (Update delta a)) /\
  (exists b e t,
     0 <= b <= 100 /\ 0 <= e <= 100 /\ 0 < t /\
     forall a, GetVolume (Update t (SetFade b e t a)) = Some 0 /\ e <> 0).
Proof.
  split.
  - intros x delta a. unfold Update.
    cbn [fade_time set_fade_end]. destruct (dle (fade_time a) d0); reflexivity.
  - exists 0, 1, 49. repeat (split; [lia|]).
    intros a. split; [|lia]. destruct a. vm_compute. reflexivity.
Qed.

(** ** A RIFF stream too short for its format code *)

(** The probe at offset 20 of a stream of at most 20 bytes extracts
    nothing and leaves [failbit] set, which the [seekg(0)] after it does
    not clear. *)
Lemma short_probe s :
  Z.of_nat (List.length (contents s)) <= 20 ->
  exists s2, stream_read (seekg 20 (at_start s)) 2 = (s2, []) /\
             failbit (seekg 0 s2) = true.
Proof.
  intros Hlen.
  assert (Hdrop : take 2 (drop 20 (contents s)) = [])
    by (rewrite drop_ge by lia; reflexivity).
  assert (Hseek :
    seekg 20 (at_start s) =
      mkInputStream (contents s) 20 false false false (stream_name s) (seek_past_end s) \/
    seekg 20 (at_start s) =
      mkInputStream (contents s) 0 false true false (stream_name s) (seek_past_end s)).
  { unfold seekg, at_start, stream_fail.
    cbn [failbit badbit orb contents position stream_name seek_past_end].
    destruct ((0 <=? 20) &&
              ((20 <=? Z.of_nat (List.length (contents s))) || seek_past_end s));
      [left | right]; reflexivity. }
  destruct Hseek as [-> | ->]; unfold stream_read, stream_good;
    cbn [eofbit failbit badbit orb negb contents position stream_name seek_past_end].
  - change (Z.to_nat 20) with 20%nat. rewrite Hdrop. cbn [List.length Nat.ltb Nat.leb].
    eexists. split; reflexivity.
  - eexists. split; reflexivity.
Qed.

(** X18. A RIFF stream of at most 20 bytes in a build with the fast WAV
    path: the read of the format code extracts nothing, so [raw_enc]
    keeps what the stack held, and that alone decides between the
    [WavDecoder] and libsndfile, whatever the stream holds after its
    magic. The stream is returned with [failbit] set, not rewound. *)
Theorem Create_short_riff cfg env works s resample :
  stream_good s = true ->
  take 4 (ahead s) = lit "RIFF" ->
  Z.of_nat (List.length (contents s)) <= 20 ->
  WANT_FASTWAV cfg = true ->
  returned_decoder (Create cfg env works s resample) =
    (if le16 (raw_enc_stack env) =? 1
     then Some (add_resampler cfg resample (Constructed WavDecoder))
     else if HAVE_LIBSNDFILE cfg
          then Some (add_resampler cfg resample (Constructed LibsndfileDecoder))
          else None) /\
  failbit (returned_stream (Create cfg env works s resample)) = true /\
  ~ stream_rewound (returned_stream (Create cfg env works s resample)).
Proof.
  intros Hgood Hmagic Hlen Hfast.
  assert (Hshape :
    returned_decoder (Create cfg env works s resample) =
      (if le16 (raw_enc_stack env) =? 1
       then Some (add_resampler cfg resample (Constructed WavDecoder))
       else if HAVE_LIBSNDFILE cfg
            then Some (add_resampler cfg resample (Constructed LibsndfileDecoder))
            else None) /\
    failbit (returned_stream (Create cfg env works s resample)) = true).
  { rewrite Create_after_magic;
      [|exact Hgood | exact (take_4_length _ _ Hmagic eq_refl)].
    rewrite Hmagic. unfold Create_ogg, Create_fastwav, Create_common.
    change (strncmp (lit "RIFF") (lit "MThd") 4 =? 0) with false.
    change (strncmp (lit "RIFF") (lit "OggS") 4 =? 0) with false.
    change (strncmp (lit "RIFF") (lit "RIFF") 4 =? 0) with true.
    rewrite Hfast. cbn [andb orb].
    destruct (short_probe s Hlen) as (s2 & -> & Hfail).
    unfold read_into. cbn [app List.length]. rewrite drop_0.
    unfold returned_decoder, returned_stream.
    destruct (le16 (raw_enc_stack env) =? 1); [split; [reflexivity | exact Hfail]|].
    destruct (HAVE_LIBSNDFILE cfg); (split; [reflexivity | exact Hfail]). }
  destruct Hshape as [Hdec Hfail]. split; [exact Hdec|]. split; [exact Hfail|].
  intros (_ & _ & Hclear & _). congruence.
Qed.

Lemma Create_short_riff_witness :
  returned_decoder
    (Create full_build wav_on_stack true (stream_of (lit "RIFF....WAVEfmt ")) false)
    = Some (Constructed WavDecoder).
Proof.
  destruct (Create_short_riff full_build wav_on_stack true
              (stream_of (lit "RIFF....WAVEfmt ")) false) as (Hdec & _);
    [reflexivity | reflexivity | vm_compute; discriminate | reflexivity |].
  exact Hdec.
Defined.

(** ** A backend that cannot seek *)

(** X19. [Decode] relies on [Rewind]: when the backend is finished after
    [FillBuffer], looping is on and [Seek(0, beg)] fails, the call ends
    in the assertion of [Rewind], whatever the request and whatever
    [FillBuffer] produced. The sentinel for WMA files is such a backend:
    with looping switched on, decoding from it trips the assertion. *)
Theorem Decode_rewind_fails {B : Type} `{Backend B} (d : Decoder B)
    m buffer length b' m' res :
  paused (base d) = false ->
  looping (base d) = true ->
  0 <= length <= INT_MAX ->
  FillBuffer (impl d) m buffer length = (b', m', res) ->
  IsFinished b' = true ->
  snd (Seek b' 0 seek_beg) = false ->
  Decode d m buffer length = AssertFailed "Rewind".
Proof.
  intros Hp Hl Hlen Hfill Hfin Hseek.
  unfold Decode, Decode3. change (Z.to_nat (10 - 0)) with 10%nat.
  cbn [Decode_fuel]. rewrite Hp, Hfill.
  assert (Hpad : exists m2,
    (if res <? 0 then memset m' buffer x00 length
     else if res <? length
          then memset m' (buffer + res) x00 (int_wrap (length - res))
          else Done m') = Done m2).
  { unfold memset, INT_MAX in *. destruct (Z.ltb_spec res 0).
    - destruct (Z.ltb_spec length 0); [lia | eauto].
    - destruct (Z.ltb_spec res length); [|eauto].
      rewrite int_wrap_id by (unfold in_int, INT_MIN, INT_MAX; lia).
      destruct (Z.ltb_spec (length - res) 0); [lia | eauto]. }
  destruct Hpad as [m2 ->].
  unfold observe, with_base. cbn [mbind outcome_bind base impl calls].
  rewrite Hfin, Hl. change (0 <? 10) with true. cbn [andb].
  unfold Rewind. cbn [base impl calls].
  destruct (Seek b' 0 seek_beg) as [b2 ok]. cbn [snd] in Hseek. subst ok.
  reflexivity.
Qed.

Lemma Decode_rewind_fails_witness :
  Decode (with_base (set_looping true) (WMAUnsupportedFormatDecoder idle_decoder))
    ∅ 0 4 = AssertFailed "Rewind".
Proof.
  apply (Decode_rewind_fails _ ∅ 0 4 tt ∅ (-1));
    [reflexivity | reflexivity | vm_compute; split; discriminate
    | reflexivity | reflexivity | reflexivity].
Defined.

(** ** [DecodeAll] while paused *)

Lemma DecodeAll_loop_paused {B : Type} `{Backend B} (d : Decoder B) :
  paused (base d) = true ->
  IsFinished (impl d) = false ->
  forall fuel buffer,
    DecodeAll_loop fuel d buffer = OutOfFuel \/
    DecodeAll_loop fuel d buffer = Thrown "length_error".
Proof.
  intros Hp Hf. induction fuel as [|fuel IH]; intros buffer; [left; reflexivity|].
  cbn [DecodeAll_loop]. rewrite Hf. cbn [negb].
  unfold Decode_chunk, Decode, Decode3. change (Z.to_nat (10 - 0)) with 10%nat.
  cbn [Decode_fuel]. rewrite Hp. unfold memset, buffer_size.
  change (8192 <? 0) with false. cbn [mbind outcome_bind].
  change (8192 <? 8192) with false. cbv iota.
  unfold vector_resize. destruct (_ >? vector_max_size); [right; reflexivity|].
  cbn [mbind outcome_bind]. apply IH.
Qed.

(** X20. [DecodeAll] on a paused decoder whose stream is not finished
    never returns a buffer: every [Decode] hands back a full chunk of
    silence without touching the stream, so the loop appends chunk after
    chunk; it is still running after any number of rounds, unless the
    vector has refused to grow. *)
Theorem DecodeAll_paused_never_returns {B : Type} `{Backend B}
    (d : Decoder B) (fuel : nat) :
  paused (base d) = true ->
  IsFinished (impl d) = false ->
  DecodeAll fuel d = OutOfFuel \/ DecodeAll fuel d = Thrown "length_error".
Proof.
  intros Hp Hf. unfold DecodeAll.
  rewrite vector_resize_done by (unfold buffer_size, vector_max_size; lia).
  cbn [mbind outcome_bind]. apply DecodeAll_loop_paused; assumption.
Qed.

Lemma DecodeAll_paused_never_returns_witness :
  DecodeAll 1000 (Pause stalled_decoder) = OutOfFuel \/
  DecodeAll 1000 (Pause stalled_decoder) = Thrown "length_error".
Proof.
  apply DecodeAll_paused_never_returns; reflexivity.
Defined.
